(** * Terrain, road and scatter core of the driving demo (src/main.js)

    A shallow embedding of the generation and height-sampling code of
    [src/main.js].  In the first part JavaScript numbers are modelled as
    exact rationals ([Q]): every operation is the mathematical one and
    no rounding is modelled.  A read that yields [undefined] (and so
    [NaN] in the arithmetic that follows) is modelled by [None].  Every
    divisor in the code is a non-zero constant, except the road length
    (an output of three.js, positive for a road that spans the terrain).

    The module [Double] embeds the terrain build and the height query
    once more over binary64 floats, with the vertex buffer rounded to
    single precision, for the properties that depend on rounding. *)

From Stdlib Require Import ZArith QArith Qround Qabs Qminmax Lqa Lia List Floats.
From stdpp Require Import base list strings gmap.
Import ListNotations.

Set Warnings "-inexact-float".

Local Open Scope Z_scope.

(** ** JavaScript numeric primitives *)

Module JS.

(** [Math.floor]. *)
Definition floor (q : Q) : Z := Qfloor q.

(** Truncation toward zero (the integer part used by [%] and by the
    typed-array conversions). *)
Definition trunc (q : Q) : Z := Z.quot (Qnum q) (Zpos (Qden q)).

(** The remainder operator [a % b]: the result has the sign of the
    dividend. *)
Definition rem (a b : Q) : Q := (a - b * inject_Z (trunc (a / b)))%Q.

(** Storing a number into a [Uint8Array] slot: truncate, then reduce
    modulo 256. *)
Definition ToUint8 (q : Q) : Z := (trunc q) mod 256.

(** [Math.abs]. *)
Definition abs (q : Q) : Q := Qabs q.

(** The comparison [a < b]. *)
Definition lt (a b : Q) : bool := negb (Qle_bool b a).

(** [Math.PI], the double nearest to pi, as an exact rational. *)
Definition PI : Q := 884279719003555 # 281474976710656.

End JS.

(** ** Configuration constants (lines 27-35) *)

Definition terrainWidth : Q := 400.
Definition terrainDepth : Q := 800.
Definition resolution : Z := 128.
Definition heightScale : Q := 30.
Definition noiseScale : Q := 1 # 100.

Definition roadWidth : Q := 12.
Definition roadSegments : nat := 100.
Definition roadTextureRepeat : Q := 10.

(** Lines 127-129. *)
Definition worldWidth : Z := resolution.
Definition worldDepth : Z := resolution.
Definition size : Z := worldWidth * worldDepth.

(** ** Buffers, geometries and meshes (the part of three.js the code uses) *)

Record Vec3 := mkVec3 { vx : Q; vy : Q; vz : Q }.

(** A [BufferAttribute]: a flat typed array read in groups of
    [itemSize]. *)
Record BufferAttribute := mkAttr {
  array : list Q;
  itemSize : nat
}.

Definition count (a : BufferAttribute) : nat :=
  (length (array a) / itemSize a)%nat.

(** Reading slot [k] of item [index]; a negative or too large index reads
    [undefined]. *)
Definition getComponent (a : BufferAttribute) (index : Z) (k : nat) : option Q :=
  if index <? 0 then None
  else array a !! (Z.to_nat index * itemSize a + k)%nat.

Definition getX (a : BufferAttribute) (index : Z) : option Q := getComponent a index 0.
Definition getY (a : BufferAttribute) (index : Z) : option Q := getComponent a index 1.
Definition getZ (a : BufferAttribute) (index : Z) : option Q := getComponent a index 2.

Record BufferGeometry := mkGeometry {
  position : option BufferAttribute;
  uv : option BufferAttribute
}.

(** Unit quaternions are stored with their four components. *)
Record Quat := mkQuat { qx : Q; qy : Q; qz : Q; qw : Q }.

(** An [Object3D] carrying a geometry: the transform fields and the two
    shadow flags the code touches. *)
Record Mesh := mkMesh {
  geometry : option BufferGeometry;
  mposition : Vec3;
  mquaternion : Quat;
  mscale : Vec3;
  receiveShadow : bool;
  castShadow : bool
}.

(** The defaults of a freshly constructed [THREE.Mesh]. *)
Definition newMesh (g : BufferGeometry) : Mesh :=
  {| geometry := Some g;
     mposition := mkVec3 0 0 0;
     mquaternion := mkQuat 0 0 0 1;
     mscale := mkVec3 1 1 1;
     receiveShadow := false;
     castShadow := false |}.

(** ** Height query (lines 185-226) *)

Section HeightQuery.
Local Open Scope Q_scope.

(** World size of one grid cell along each axis. *)
Definition cellWidth : Q := terrainWidth / inject_Z (worldWidth - 1).
Definition cellDepth : Q := terrainDepth / inject_Z (worldDepth - 1).

Definition gridX (x : Q) : Z := JS.floor ((x + terrainWidth / 2) / cellWidth).
Definition gridZ (z : Q) : Z := JS.floor ((z + terrainDepth / 2) / cellDepth).

Definition clampedGridX (x : Q) : Z := Z.max 0 (Z.min (worldWidth - 2) (gridX x)).
Definition clampedGridZ (z : Q) : Z := Z.max 0 (Z.min (worldDepth - 2) (gridZ z)).

Definition p00Index (x z : Q) : Z := (clampedGridZ z * worldWidth + clampedGridX x)%Z.
Definition p10Index (x z : Q) : Z := (clampedGridZ z * worldWidth + clampedGridX x + 1)%Z.
Definition p01Index (x z : Q) : Z := ((clampedGridZ z + 1) * worldWidth + clampedGridX x)%Z.
Definition p11Index (x z : Q) : Z := ((clampedGridZ z + 1) * worldWidth + clampedGridX x + 1)%Z.

(** Fractional offsets: computed from the unclamped local coordinate. *)
Definition fracU (x : Q) : Q := JS.rem (x + terrainWidth / 2) cellWidth / cellWidth.
Definition fracV (z : Q) : Q := JS.rem (z + terrainDepth / 2) cellDepth / cellDepth.

Definition bilinear (u v y00 y10 y01 y11 : Q) : Q :=
  (1 - u) * (1 - v) * y00 + u * (1 - v) * y10 + (1 - u) * v * y01 + u * v * y11.

Definition interpolate (pos : BufferAttribute) (x z : Q) : option Q :=
  match getY pos (p00Index x z), getY pos (p10Index x z),
        getY pos (p01Index x z), getY pos (p11Index x z) with
  | Some y00, Some y10, Some y01, Some y11 =>
      Some (bilinear (fracU x) (fracV z) y00 y10 y01 y11)
  | _, _, _, _ => None
  end.

(** [terrainMesh] is the module-level variable of line 8; [None] is its
    value before [createTerrain] has run. *)
Definition getTerrainHeight (terrainMesh : option Mesh) (x z : Q) : option Q :=
  match terrainMesh with
  | None => Some 0
  | Some m =>
      match geometry m with
      | None => Some 0
      | Some g =>
          match position g with
          | None => Some 0
          | Some pos => interpolate pos x z
          end
      end
  end.

End HeightQuery.

(** The position attribute the query reads, if the terrain is ready. *)
Definition terrainPosition (terrainMesh : option Mesh) : option BufferAttribute :=
  m ← terrainMesh; g ← geometry m; position g.

(** The point of the terrain rectangle nearest to [(x, z)]. *)
Definition nearestTerrainPoint (x z : Q) : Q * Q :=
  (Qmax (- (terrainWidth / 2)) (Qmin (terrainWidth / 2) x),
   Qmax (- (terrainDepth / 2)) (Qmin (terrainDepth / 2) z)).

(** [h] is a convex combination of the four corner values. *)
Definition isConvexCombination (h y00 y10 y01 y11 : Q) : Prop :=
  exists a b c d : Q,
    (0 <= a /\ 0 <= b /\ 0 <= c /\ 0 <= d /\ a + b + c + d == 1
     /\ h == a * y00 + b * y10 + c * y01 + d * y11)%Q.

(** ** Heightfield builder (lines 127-154) *)

Section HeightfieldBuilder.
Local Open Scope Q_scope.

(** [new THREE.PlaneGeometry(width, height, widthSegments, heightSegments)]
    pushes, row by row, the vertices [(x, -y, 0)] with
    [x = ix * segment_width - width/2] and
    [y = iy * segment_height - height/2]. *)
Definition planeVertex (width height : Q) (wSeg hSeg : nat) (iy ix : nat) : list Q :=
  [ inject_Z (Z.of_nat ix) * (width / inject_Z (Z.of_nat wSeg)) - width / 2;
    - (inject_Z (Z.of_nat iy) * (height / inject_Z (Z.of_nat hSeg)) - height / 2);
    0 ].

Definition planeRow (width height : Q) (wSeg hSeg : nat) (iy : nat) : list Q :=
  flat_map (planeVertex width height wSeg hSeg iy) (seq 0 (S wSeg)).

Definition planePositions (width height : Q) (wSeg hSeg : nat) : list Q :=
  flat_map (planeRow width height wSeg hSeg) (seq 0 (S hSeg)).

Definition planeUV (wSeg hSeg : nat) (iy ix : nat) : list Q :=
  [ inject_Z (Z.of_nat ix) / inject_Z (Z.of_nat wSeg);
    1 - inject_Z (Z.of_nat iy) / inject_Z (Z.of_nat hSeg) ].

Definition planeUVs (wSeg hSeg : nat) : list Q :=
  flat_map (fun iy => flat_map (planeUV wSeg hSeg iy) (seq 0 (S wSeg))) (seq 0 (S hSeg)).

(** [geometry.rotateX(-Math.PI / 2)]: with cosine 0 and sine -1 the
    rotation sends [(x, y, z)] to [(x, z, -y)]. *)
Fixpoint rotateXDown (a : list Q) : list Q :=
  match a with
  | x :: y :: z :: rest => x :: z :: - y :: rotateXDown rest
  | _ => a
  end.

(** The rotated plane, vertex by vertex. *)
Definition groundVertex (width height : Q) (wSeg hSeg : nat) (iy ix : nat) : list Q :=
  [ inject_Z (Z.of_nat ix) * (width / inject_Z (Z.of_nat wSeg)) - width / 2;
    0;
    - - (inject_Z (Z.of_nat iy) * (height / inject_Z (Z.of_nat hSeg)) - height / 2) ].

Record TerrainState := mkTerrainState {
  data : list Z;
  vertices : list Q
}.

Variable noiseFn : Q -> Q -> Q -> Q.

(** The value stored in [data[i]] by line 143. *)
Definition sample (i : nat) : Z :=
  let x := inject_Z (Z.of_nat i mod worldWidth) * noiseScale in
  let z := inject_Z (JS.floor (inject_Z (Z.of_nat i) / inject_Z worldWidth)) * noiseScale in
  JS.ToUint8 ((noiseFn x z 0 * (1 # 2) + (1 # 2)) * 128).

(** One iteration of the loop of lines 139-145.  The read of [data[i]]
    on line 144 follows the write of line 143 at the same in-range
    index, so it yields the converted value. *)
Definition terrainStep (i j : nat) (st : TerrainState) : TerrainState :=
  let d := sample i in
  {| data := <[ i := d ]> (data st);
     vertices := <[ (j + 1)%nat := inject_Z d * (heightScale / 128) ]> (vertices st) |}.

(** [n] further iterations starting from counters [i], [j]. *)
Fixpoint terrainLoop (n : nat) (i j : nat) (st : TerrainState) : TerrainState :=
  match n with
  | O => st
  | S n' => terrainLoop n' (i + 1) (j + 3) (terrainStep i j st)
  end.

Definition initialTerrainState : TerrainState :=
  {| data := replicate (Z.to_nat size) 0%Z;
     vertices := rotateXDown
                   (planePositions terrainWidth terrainDepth
                      (Z.to_nat (worldWidth - 1)) (Z.to_nat (worldDepth - 1))) |}.

Definition builtTerrainState : TerrainState :=
  terrainLoop (Z.to_nat size) 0 0 initialTerrainState.

(** The position attribute of the built terrain. *)
Definition builtPosition : BufferAttribute := mkAttr (vertices builtTerrainState) 3.

(** The mesh assigned to [terrainMesh]; vertex normals and the material
    are not modelled. *)
Definition createTerrain : Mesh :=
  let g := {| position := Some builtPosition;
              uv := Some (mkAttr (planeUVs (Z.to_nat (worldWidth - 1))
                                           (Z.to_nat (worldDepth - 1))) 2) |} in
  {| geometry := Some g;
     mposition := mkVec3 0 0 0;
     mquaternion := mkQuat 0 0 0 1;
     mscale := mkVec3 1 1 1;
     receiveShadow := true;
     castShadow := false |}.

(** The height written for vertex [i] by line 144. *)
Definition vertexHeight (i : nat) : Q := inject_Z (sample i) * (heightScale / 128).

End HeightfieldBuilder.

(** ** Road path generator (lines 229-293) *)

(** What [generateRoads] leaves behind: the road mesh, the array of path
    points (mutated in place by the conform pass) and the geometry that
    was built first and disposed of at the end. *)
Record RoadResult := mkRoadResult {
  roadMesh : Mesh;
  pathPoints : list Vec3;
  firstGeometry : BufferGeometry
}.

Section RoadGenerator.
Local Open Scope Q_scope.

(** [Math.sin]. *)
Variable sin : Q -> Q.

(** The spline and sweep of three.js are kept abstract:
    [tubeVertex pts i j] is the position of vertex [j] of ring [i] of
    the tube swept along the Catmull-Rom curve through [pts], and
    [getLength pts] is the arc length of that curve. *)
Variable tubeVertex : list Vec3 -> nat -> nat -> Vec3.
Variable getLength : list Vec3 -> Q.

Variable terrainMesh : option Mesh.

Definition roadStartX : Q := 0.
Definition roadStartZ : Q := - terrainDepth / 2.
Definition roadSegmentLength : Q := terrainDepth / inject_Z (Z.of_nat roadSegments).

(** Lines 239-243: the plan pass. *)
Definition plannedPoint (i : nat) : Vec3 :=
  let z := roadStartZ + inject_Z (Z.of_nat i) * roadSegmentLength in
  let x := sin (z * (5 # 100)) * 5 in
  mkVec3 x 0 z.

Definition plannedPoints : list Vec3 := map plannedPoint (seq 0 (S roadSegments)).

Definition divisions : nat := (roadSegments * 2)%nat.
Definition radialSegments : nat := 8.

(** [new THREE.TubeGeometry(curve, divisions, roadWidth / 2, 8, false)]:
    [divisions + 1] rings of [radialSegments + 1] vertices, with the
    library's default texture coordinates. *)
Definition tubeRing (pts : list Vec3) (i : nat) : list Q :=
  flat_map (fun j => let p := tubeVertex pts i j in [vx p; vy p; vz p])
           (seq 0 (S radialSegments)).

Definition tubePositions (pts : list Vec3) : list Q :=
  flat_map (tubeRing pts) (seq 0 (S divisions)).

Definition tubeUVs : list Q :=
  flat_map (fun i =>
    flat_map (fun j => [ inject_Z (Z.of_nat i) / inject_Z (Z.of_nat divisions);
                         inject_Z (Z.of_nat j) / inject_Z (Z.of_nat radialSegments) ])
             (seq 0 (S radialSegments)))
    (seq 0 (S divisions)).

Definition TubeGeometry (pts : list Vec3) : BufferGeometry :=
  {| position := Some (mkAttr (tubePositions pts) 3);
     uv := Some (mkAttr tubeUVs 2) |}.

(** One iteration of the loop of lines 255-264 on the array of the uv
    attribute. *)
Definition uvStep (positionAttribute : BufferAttribute) (roadLength : Q)
    (i : nat) (uvArray : list Q) : option (list Q) :=
  match getX positionAttribute (Z.of_nat i), getZ positionAttribute (Z.of_nat i) with
  | Some xValue, Some zValue =>
      Some (<[ (i * 2 + 1)%nat := zValue / roadLength * roadTextureRepeat ]>
              (<[ (i * 2)%nat := (xValue / (roadWidth / 2) + 1) / 2 ]> uvArray))
  | _, _ => None
  end.

Fixpoint uvLoop (positionAttribute : BufferAttribute) (roadLength : Q)
    (n i : nat) (uvArray : list Q) : option (list Q) :=
  match n with
  | O => Some uvArray
  | S n' =>
      match uvStep positionAttribute roadLength i uvArray with
      | Some uvArray' => uvLoop positionAttribute roadLength n' (i + 1) uvArray'
      | None => None
      end
  end.

(** What the conform pass makes of one point. *)
Definition conformPoint (p : Vec3) : option Vec3 :=
  h ← getTerrainHeight terrainMesh (vx p) (vz p);
  Some (mkVec3 (vx p) (h + (1 # 10)) (vz p)).

(** One iteration of the conform pass, lines 280-283: the point object
    at index [i] gets a new [y]. *)
Definition conformStep (i : nat) (points : list Vec3) : option (list Vec3) :=
  match points !! i with
  | Some p =>
      match getTerrainHeight terrainMesh (vx p) (vz p) with
      | Some h => Some (<[ i := mkVec3 (vx p) (h + (1 # 10)) (vz p) ]> points)
      | None => None
      end
  | None => None
  end.

Fixpoint conformLoop (n i : nat) (points : list Vec3) : option (list Vec3) :=
  match n with
  | O => Some points
  | S n' =>
      match conformStep i points with
      | Some points' => conformLoop n' (i + 1) points'
      | None => None
      end
  end.

(** Lines 251-265: the texture coordinates of the first tube, rewritten
    from its vertex positions. *)
Definition adjustedUVs : option (list Q) :=
  uvLoop (mkAttr (tubePositions plannedPoints) 3) (getLength plannedPoints)
         (count (mkAttr tubeUVs 2)) 0 tubeUVs.

(** Lines 267-270: the mesh, with its shadow flags set and lifted by
    one half. *)
Definition liftedMesh (g : BufferGeometry) : Mesh :=
  let m := newMesh g in
  {| geometry := geometry m;
     mposition := mkVec3 (vx (mposition m)) (1 # 2) (vz (mposition m));
     mquaternion := mquaternion m;
     mscale := mscale m;
     receiveShadow := true;
     castShadow := true |}.

(** Line 291: the mesh keeps everything but its geometry. *)
Definition withGeometry (m : Mesh) (g : BufferGeometry) : Mesh :=
  {| geometry := Some g;
     mposition := mposition m;
     mquaternion := mquaternion m;
     mscale := mscale m;
     receiveShadow := receiveShadow m;
     castShadow := castShadow m |}.

(** Lines 285-288: the tube rebuilt from the conformed points; its uv
    attribute becomes a copy of [uvAttribute]. *)
Definition rebuiltGeometry (points : list Vec3) (uvAttribute : BufferAttribute)
    : BufferGeometry :=
  {| position := position (TubeGeometry points);
     uv := Some (mkAttr (array uvAttribute) (itemSize uvAttribute)) |}.

(** Lines 267-272 and 285-292 put together: the mesh is created around
    the first tube and ends with the rebuilt geometry. *)
Definition finishRoads (uvArray : list Q) (points : list Vec3) : RoadResult :=
  let uvAttribute := mkAttr uvArray 2 in
  let first := mkGeometry (Some (mkAttr (tubePositions plannedPoints) 3))
                          (Some uvAttribute) in
  mkRoadResult
    (withGeometry (liftedMesh first) (rebuiltGeometry points uvAttribute))
    points first.

(** The whole function; a pass can fail only by reading outside a
    buffer. *)
Definition generateRoads : option RoadResult :=
  uvArray ← adjustedUVs;
  points ← conformLoop (length plannedPoints) 0 plannedPoints;
  Some (finishRoads uvArray points).

End RoadGenerator.


(** ** Scatter placer (lines 308-344) *)

(** The transform fields given to one cloned tree. *)
Record ScatterInstance := mkInstance {
  iposition : Vec3;
  iscale : Vec3;
  rotationY : Q
}.

Section ScatterPlacer.
Local Open Scope Q_scope.

(** The successive results of [Math.random()]; the counter threaded
    through the code below is the number of draws made so far. *)
Variable random : nat -> Q.

Variable terrainMesh : option Mesh.

Definition numTrees : nat := 500.
Definition treeScale : Q := 5.

Definition inRoadArea (x z : Q) : bool :=
  JS.lt (JS.abs x) (roadWidth * (15 # 10)) && JS.lt (JS.abs z) (terrainDepth * (5 # 10)).

(** The do-while loop of lines 319-322, with a bound on the number of
    rounds; [None] when the bound is reached. *)
Fixpoint samplePosition (fuel : nat) (k : nat) : option (Q * Q * nat) :=
  match fuel with
  | O => None
  | S fuel' =>
      let x := (random k - (5 # 10)) * terrainWidth * (9 # 10) in
      let z := (random (k + 1) - (5 # 10)) * terrainDepth * (9 # 10) in
      if inRoadArea x z then samplePosition fuel' (k + 2)%nat
      else Some (x, z, (k + 2)%nat)
  end.

(** The body of the loop of lines 314-343 for one tree. *)
Definition placeTree (fuel : nat) (k : nat) : option (ScatterInstance * nat) :=
  match samplePosition fuel k with
  | None => None
  | Some (x, z, k') =>
      match getTerrainHeight terrainMesh x z with
      | None => None
      | Some y =>
          Some ({| iposition := mkVec3 x y z;
                   iscale := mkVec3 treeScale treeScale treeScale;
                   rotationY := random k' * JS.PI * 2 |}, S k')
      end
  end.

(** [n] further trees; [scene] collects the clones added so far. *)
Fixpoint treeLoop (fuel : nat) (n : nat) (k : nat) (scene : list ScatterInstance)
    : option (list ScatterInstance) :=
  match n with
  | O => Some scene
  | S n' =>
      match placeTree fuel k with
      | None => None
      | Some (t, k') => treeLoop fuel n' k' (scene ++ [t])
      end
  end.

(** [treeModel] is [true] once the model is loaded. *)
Definition populateTrees (treeModel : bool) (fuel : nat) : option (list ScatterInstance) :=
  if treeModel then treeLoop fuel numTrees 0 [] else Some [].

End ScatterPlacer.

(** What the claim asks of one placed tree. *)
Definition wellPlaced (terrainMesh : option Mesh) (t : ScatterInstance) : Prop :=
  (~ (Qabs (vx (iposition t)) < 18 /\ Qabs (vz (iposition t)) < 400)
   /\ - ((45 # 100) * terrainWidth) <= vx (iposition t) <= (45 # 100) * terrainWidth
   /\ - ((45 # 100) * terrainDepth) <= vz (iposition t) <= (45 # 100) * terrainDepth
   /\ getTerrainHeight terrainMesh (vx (iposition t)) (vz (iposition t))
      = Some (vy (iposition t))
   /\ iscale t = mkVec3 treeScale treeScale treeScale
   /\ 0 <= rotationY t
   /\ rotationY t < 2 * JS.PI
   /\ rotationY t < 2 * (31415926535897932 # 10000000000000000))%Q.

(** ** Noise texture (lines 130-132 and 157-180) *)

Section NoiseTexture.
Local Open Scope Q_scope.

(** Storing a number into a [Uint8ClampedArray] slot: clamp to
    [[0, 255]], round to the nearest integer, ties to the even one. *)
Definition ToUint8Clamp (q : Q) : Z :=
  if Qle_bool q 0 then 0%Z
  else if Qle_bool 255 q then 255%Z
  else
    let f := Qfloor q in
    match Qcompare (inject_Z f + (1 # 2)) q with
    | Lt => (f + 1)%Z
    | Gt => f
    | Eq => if Z.even f then f else (f + 1)%Z
    end.

(** The pixel array read back from a canvas of the given size after the
    black fill of lines 163-164: opaque black, four slots per pixel. *)
Definition blackImage (width height : nat) : list Z :=
  flat_map (fun _ => [0; 0; 0; 255]%Z) (seq 0 (width * height)).

(** The value stored in the three colour slots of pixel [i]: a quarter
    of the sum of four samples.  A read outside [data] is [undefined],
    the sum is then [NaN], and [NaN] is stored as 0. *)
Definition grey (data : list Z) (width i : nat) : Z :=
  match data !! i, data !! (i + 1)%nat,
        data !! (i + width)%nat, data !! (i + width + 1)%nat with
  | Some v0, Some v1, Some v2, Some v3 =>
      ToUint8Clamp (inject_Z (v0 + v1 + v2 + v3) / 4)
  | _, _, _, _ => 0%Z
  end.

(** One iteration of the loop of lines 167-177. *)
Definition textureStep (data : list Z) (width i j : nat) (imageData : list Z) : list Z :=
  <[ (j + 3)%nat := 255%Z ]>
    (<[ (j + 2)%nat := grey data width i ]>
       (<[ (j + 1)%nat := grey data width i ]>
          (<[ (j + 0)%nat := grey data width i ]> imageData))).

Fixpoint textureLoop (data : list Z) (width n i j : nat) (imageData : list Z) : list Z :=
  match n with
  | O => imageData
  | S n' => textureLoop data width n' (i + 1) (j + 4) (textureStep data width i j imageData)
  end.

(** Lines 159-166: [context.getImageData] on the canvas filled with
    black; it throws (here [None]) when the canvas has no pixel. *)
Definition getImageData (width height : nat) : option (list Z) :=
  if decide (width * height = 0)%nat then None else Some (blackImage width height).

(** The pixel array put back on the canvas. *)
Definition generateTexture (data : list Z) (width height : nat) : option (list Z) :=
  imageData ← getImageData width height;
  Some (textureLoop data width (length data) 0 0 imageData).

End NoiseTexture.

(** ** Input handling and the game loop (lines 14-24, 297-305, 348-402) *)

Definition maxSpeed : Q := 5 # 10.
Definition acceleration : Q := 2 # 100.
Definition deceleration : Q := 1 # 100.
Definition steeringSpeed : Q := 5 # 100.

(** The object [keys] of lines 14-19. *)
Definition initialKeys : gmap string bool :=
  <[ "ArrowUp" := false ]>
    (<[ "ArrowDown" := false ]>
       (<[ "ArrowLeft" := false ]> (<[ "ArrowRight" := false ]> ∅))).

(** The names of the four properties. *)
Definition fourKeys : gset string :=
  {[ "ArrowUp"; "ArrowDown"; "ArrowLeft"; "ArrowRight" ]}.

(** Lines 348-352: only a key the object already owns is set. *)
Definition onKeyDown (key : string) (keys : gmap string bool) : gmap string bool :=
  match keys !! key with
  | Some _ => <[ key := true ]> keys
  | None => keys
  end.

(** Lines 354-358. *)
Definition onKeyUp (key : string) (keys : gmap string bool) : gmap string bool :=
  match keys !! key with
  | Some _ => <[ key := false ]> keys
  | None => keys
  end.

(** The two listeners registered on lines 113-114, as events. *)
Inductive KeyEvent :=
| KeyDown (key : string)
| KeyUp (key : string).

Definition handleKeyEvent (keys : gmap string bool) (e : KeyEvent) : gmap string bool :=
  match e with
  | KeyDown key => onKeyDown key keys
  | KeyUp key => onKeyUp key keys
  end.

(** The test [if (keys.ArrowUp)]: a missing property is falsy. *)
Definition pressed (keys : gmap string bool) (key : string) : bool :=
  default false (keys !! key).

(** The vehicle's transform fields the loop touches: [position] and
    [rotation.y]. *)
Record Vehicle := mkVehicle {
  vehiclePosition : Vec3;
  vehicleYaw : Q
}.

(** Lines 297-305. *)
Definition createVehicle : Vehicle :=
  {| vehiclePosition := mkVec3 0 5 0; vehicleYaw := 0 |}.

(** The module-level state read and written by [animate]. *)
Record Game := mkGame {
  keys : gmap string bool;
  vehicleSpeed : Q;
  vehicle : Vehicle
}.

Section GameLoop.
Local Open Scope Q_scope.

(** [forward yaw] is the vector (0, 0, -1) turned by the quaternion that
    three.js keeps in step with [rotation.y]. *)
Variable forward : Q -> Vec3.

Variable terrainMesh : option Mesh.

(** Lines 367-375. *)
Definition updateSpeed (keys : gmap string bool) (vehicleSpeed delta : Q) : Q :=
  if pressed keys "ArrowUp" then
    Qmin maxSpeed (vehicleSpeed + acceleration * delta)
  else if pressed keys "ArrowDown" then
    Qmax (- maxSpeed * (5 # 10)) (vehicleSpeed - acceleration * delta)
  else
    let s := if JS.lt 0 vehicleSpeed
             then Qmax 0 (vehicleSpeed - deceleration * delta)
             else vehicleSpeed in
    if JS.lt s 0 then Qmin 0 (s + deceleration * delta) else s.

(** Lines 377-384. *)
Definition steer (keys : gmap string bool) (vehicleSpeed delta yaw : Q) : Q :=
  if JS.lt (1 # 100) (JS.abs vehicleSpeed) then
    let turn := steeringSpeed * delta * (if JS.lt 0 vehicleSpeed then 1 else -1) in
    let yaw1 := if pressed keys "ArrowLeft" then yaw + turn else yaw in
    if pressed keys "ArrowRight" then yaw1 - turn else yaw1
  else yaw.

(** Lines 364-393 for a frame that took [delta] seconds; the camera and
    the call of the renderer are left out. *)
Definition animate (delta : Q) (g : Game) : option Game :=
  let speed := updateSpeed (keys g) (vehicleSpeed g) delta in
  let yaw := steer (keys g) speed delta (vehicleYaw (vehicle g)) in
  let step := speed * delta * 60 in
  let x := vx (vehiclePosition (vehicle g)) + vx (forward yaw) * step in
  let z := vz (vehiclePosition (vehicle g)) + vz (forward yaw) * step in
  currentTerrainHeight ← getTerrainHeight terrainMesh x z;
  Some {| keys := keys g;
          vehicleSpeed := speed;
          vehicle := {| vehiclePosition := mkVec3 x (currentTerrainHeight + (15 # 10)) z;
                        vehicleYaw := yaw |} |}.

End GameLoop.

(** What the browser runs once [init] has returned: the two key
    listeners of lines 113-114 and the frames of [animate], in any
    order. *)
Inductive Tick :=
| Frame (delta : Q)
| Key (e : KeyEvent).

Section Session.

Variable forward : Q -> Vec3.
Variable terrainMesh : option Mesh.

(** The state after lines 14-20 and [createVehicle]. *)
Definition initialGame : Game :=
  {| keys := initialKeys; vehicleSpeed := 0; vehicle := createVehicle |}.

Definition tick (g : Game) (t : Tick) : option Game :=
  match t with
  | Frame delta => animate forward terrainMesh delta g
  | Key e => Some {| keys := handleKeyEvent (keys g) e;
                     vehicleSpeed := vehicleSpeed g;
                     vehicle := vehicle g |}
  end.

Fixpoint play (g : Game) (ticks : list Tick) : option Game :=
  match ticks with
  | [] => Some g
  | t :: ticks' => g' ← tick g t; play g' ticks'
  end.

Definition frameTime (t : Tick) : Q :=
  match t with
  | Frame delta => delta
  | Key _ => 0
  end.

End Session.

(** ** The terrain build and the height query in IEEE-754 doubles

    The definitions above compute over exact rationals.  The code runs
    on doubles, and the vertex buffer holds single-precision numbers.
    This module embeds lines 134-145 and 185-226 once more over Rocq's
    binary64 floats, operation by operation; an [undefined] operand of
    an arithmetic operation is [nan]. *)

Module Double.
Local Open Scope float_scope.

(** A finite double as [m * 2 ^ e]; [None] for [NaN] and the
    infinities. *)
Definition decode (x : float) : option (Z * Z) :=
  match Prim2SF x with
  | S754_zero _ => Some (0, 0)%Z
  | S754_finite s m e => Some (if s then Z.neg m else Z.pos m, e)
  | _ => None
  end.

(** The double nearest to [m * 2 ^ e], ties to even; a zero gets the
    sign [negative]. *)
Definition encode (m e : Z) (negative : bool) : float :=
  SF2Prim (binary_normalize prec emax m e negative).

(** An integer as a Number. *)
Definition ofZ (n : Z) : float := encode n 0 false.

(** [Math.floor]. *)
Definition floor (x : float) : float :=
  match decode x with
  | Some (m, e) => encode (Z.shiftl m e) 0 (get_sign x)
  | None => x
  end.

(** The remainder operator [a % b]: exact, with the sign of the
    dividend. *)
Definition rem (a b : float) : float :=
  match decode a, decode b with
  | Some (ma, ea), Some (mb, eb) =>
      if (mb =? 0)%Z then nan
      else
        let e := Z.min ea eb in
        encode (Z.rem (Z.shiftl ma (ea - e)) (Z.shiftl mb (eb - e))) e (get_sign a)
  | Some _, None => if is_infinity b then a else nan
  | None, _ => nan
  end.

(** [Math.min] and [Math.max]: [NaN] if an argument is, and [-0] below
    [+0]. *)
Definition min (a b : float) : float :=
  if is_nan a || is_nan b then nan
  else if a <? b then a
  else if b <? a then b
  else if get_sign a then a else b.

Definition max (a b : float) : float :=
  if is_nan a || is_nan b then nan
  else if a <? b then b
  else if b <? a then a
  else if get_sign a then b else a.

(** Storing a number into a [Float32Array] slot and reading it back:
    rounding to the nearest binary32 value, ties to even. *)
Definition toFloat32 (x : float) : float :=
  match Prim2SF x with
  | S754_finite s m e =>
      SF2Prim (binary_normalize 24 128 (if s then Z.neg m else Z.pos m) e s)
  | _ => x
  end.

(** Storing a number into a [Uint8Array] slot: [NaN] and the infinities
    give 0, other numbers are truncated and reduced modulo 256. *)
Definition ToUint8 (x : float) : Z :=
  match decode x with
  | Some (m, e) => (if (e <? 0)%Z then Z.quot m (2 ^ (- e)) else m * 2 ^ e) mod 256
  | None => 0
  end.

(** The array index named by a Number used as a property key: only a
    non-negative integer names one. *)
Definition toIndex (k : float) : option Z :=
  match decode k with
  | Some (m, e) =>
      if (0 <=? m)%Z && (Z.shiftl (Z.shiftl m e) (- e) =? m)%Z
      then Some (Z.shiftl m e)
      else None
  | None => None
  end.

(** An operand that may be [undefined]. *)
Definition toNumber (v : option float) : float := default nan v.

(** Lines 27-31 and 127-129. *)
Definition terrainWidth : float := 400.
Definition terrainDepth : float := 800.
Definition heightScale : float := 30.
Definition noiseScale : float := 0.01.
Definition worldWidth : float := ofZ resolution.
Definition worldDepth : float := ofZ resolution.

(** A [BufferAttribute] over a [Float32Array]. *)
Record BufferAttribute := mkAttr {
  array : list float;
  itemSize : nat
}.

Definition getComponent (a : BufferAttribute) (index : float) (k : nat) : option float :=
  n ← toIndex (index * ofZ (Z.of_nat (itemSize a)) + ofZ (Z.of_nat k));
  array a !! Z.to_nat n.

Definition getX (a : BufferAttribute) (index : float) : option float := getComponent a index 0.
Definition getY (a : BufferAttribute) (index : float) : option float := getComponent a index 1.
Definition getZ (a : BufferAttribute) (index : float) : option float := getComponent a index 2.

Record BufferGeometry := mkGeometry { position : option BufferAttribute }.
Record Mesh := mkMesh { geometry : option BufferGeometry }.

(** *** Height query (lines 185-226) *)

Definition cellWidth : float := terrainWidth / (worldWidth - 1).
Definition cellDepth : float := terrainDepth / (worldDepth - 1).

Definition localX (x : float) : float := x + terrainWidth / 2.
Definition localZ (z : float) : float := z + terrainDepth / 2.

Definition gridX (x : float) : float := floor (localX x / (terrainWidth / (worldWidth - 1))).
Definition gridZ (z : float) : float := floor (localZ z / (terrainDepth / (worldDepth - 1))).

Definition clampedGridX (x : float) : float := max 0 (min (worldWidth - 2) (gridX x)).
Definition clampedGridZ (z : float) : float := max 0 (min (worldDepth - 2) (gridZ z)).

Definition p00Index (x z : float) : float := clampedGridZ z * worldWidth + clampedGridX x.
Definition p10Index (x z : float) : float := clampedGridZ z * worldWidth + clampedGridX x + 1.
Definition p01Index (x z : float) : float := (clampedGridZ z + 1) * worldWidth + clampedGridX x.
Definition p11Index (x z : float) : float :=
  (clampedGridZ z + 1) * worldWidth + clampedGridX x + 1.

Definition fracU (x : float) : float :=
  rem (localX x) (terrainWidth / (worldWidth - 1)) / (terrainWidth / (worldWidth - 1)).
Definition fracV (z : float) : float :=
  rem (localZ z) (terrainDepth / (worldDepth - 1)) / (terrainDepth / (worldDepth - 1)).

Definition bilinear (u v y00 y10 y01 y11 : float) : float :=
  (1 - u) * (1 - v) * y00 + u * (1 - v) * y10 + (1 - u) * v * y01 + u * v * y11.

Definition interpolate (pos : BufferAttribute) (x z : float) : float :=
  let y00 := toNumber (getY pos (p00Index x z)) in
  let y10 := toNumber (getY pos (p10Index x z)) in
  let y01 := toNumber (getY pos (p01Index x z)) in
  let y11 := toNumber (getY pos (p11Index x z)) in
  bilinear (fracU x) (fracV z) y00 y10 y01 y11.

Definition getTerrainHeight (terrainMesh : option Mesh) (x z : float) : float :=
  match terrainMesh with
  | None => 0
  | Some m =>
      match geometry m with
      | None => 0
      | Some g =>
          match position g with
          | None => 0
          | Some pos => interpolate pos x z
          end
      end
  end.

(** *** Heightfield builder (lines 134-145) *)

(** [new THREE.PlaneGeometry(width, height, widthSegments, heightSegments)]:
    the vertices [(x, -y, 0)], computed in doubles and kept in a
    [Float32Array]. *)
Definition planeVertex (width height : float) (wSeg hSeg : nat) (iy ix : nat) : list float :=
  let segment_width := width / ofZ (Z.of_nat wSeg) in
  let segment_height := height / ofZ (Z.of_nat hSeg) in
  let y := ofZ (Z.of_nat iy) * segment_height - height / 2 in
  let x := ofZ (Z.of_nat ix) * segment_width - width / 2 in
  [ toFloat32 x; toFloat32 (- y); toFloat32 0 ].

Definition planePositions (width height : float) (wSeg hSeg : nat) : list float :=
  flat_map (fun iy => flat_map (planeVertex width height wSeg hSeg iy) (seq 0 (S wSeg)))
           (seq 0 (S hSeg)).

(** [Math.cos(-Math.PI / 2)] and [Math.sin(-Math.PI / 2)]. *)
Definition cosQuarterTurn : float := 6.123233995736766e-17.
Definition sinQuarterTurn : float := -1.

(** [Vector3.applyMatrix4] with the matrix of [makeRotationX], written
    back through [setXYZ]. *)
Definition applyRotationX (c s : float) (x y z : float) : list float :=
  let w := 1 / (0 * x + 0 * y + 0 * z + 1) in
  [ toFloat32 ((1 * x + 0 * y + 0 * z + 0) * w);
    toFloat32 ((0 * x + c * y + (- s) * z + 0) * w);
    toFloat32 ((0 * x + s * y + c * z + 0) * w) ].

(** [geometry.rotateX(-Math.PI / 2)]. *)
Fixpoint rotateX (c s : float) (a : list float) : list float :=
  match a with
  | x :: y :: z :: rest => applyRotationX c s x y z ++ rotateX c s rest
  | _ => a
  end.

Record TerrainState := mkTerrainState {
  data : list Z;
  vertices : list float
}.

Section HeightfieldBuilder.

Variable noiseFn : float -> float -> float -> float.

(** The value stored in [data[i]] by line 143. *)
Definition sample (i : nat) : Z :=
  let x := rem (ofZ (Z.of_nat i)) worldWidth * noiseScale in
  let z := floor (ofZ (Z.of_nat i) / worldWidth) * noiseScale in
  ToUint8 ((noiseFn x z 0 * 0.5 + 0.5) * 128).

(** The height written for vertex [i] by line 144, as the buffer
    holds it. *)
Definition vertexHeight (i : nat) : float :=
  toFloat32 (ofZ (sample i) * (heightScale / 128)).

(** One iteration of the loop of lines 139-145. *)
Definition terrainStep (i j : nat) (st : TerrainState) : TerrainState :=
  {| data := <[ i := sample i ]> (data st);
     vertices := <[ (j + 1)%nat := vertexHeight i ]> (vertices st) |}.

Fixpoint terrainLoop (n : nat) (i j : nat) (st : TerrainState) : TerrainState :=
  match n with
  | O => st
  | S n' => terrainLoop n' (i + 1) (j + 3) (terrainStep i j st)
  end.

Definition initialTerrainState : TerrainState :=
  {| data := replicate (Z.to_nat size) 0%Z;
     vertices := rotateX cosQuarterTurn sinQuarterTurn
                   (planePositions terrainWidth terrainDepth
                      (Z.to_nat (resolution - 1)) (Z.to_nat (resolution - 1))) |}.

Definition builtTerrainState : TerrainState :=
  terrainLoop (Z.to_nat size) 0 0 initialTerrainState.

Definition builtPosition : BufferAttribute := mkAttr (vertices builtTerrainState) 3.

Definition createTerrain : Mesh :=
  {| geometry := Some {| position := Some builtPosition |} |}.

End HeightfieldBuilder.

(** The sample noise function [rampNoise], in doubles:
    [Math.max(-1, Math.min(1, 50 * y - x))]. *)
Definition rampNoise (x y z : float) : float := max (-1) (min 1 (50 * y - x)).

End Double.

(** ** Sample inputs *)

(** A sample noise field with values in [-1, 1]: a ramp, clipped. *)
Definition rampNoise (x y z : Q) : Q := Qmax (-1) (Qmin 1 (50 * y - x)).

(** A sample sequence of draws: 0, 1/4, 1/2, 3/4, repeated. *)
Definition cycleRandom (n : nat) : Q := inject_Z (Z.of_nat (n mod 4)) * (1 # 4).

(** * Properties *)

(** ** Flat arrays built by nested loops *)

Section FlatArrays.
Context {A B : Type}.
Implicit Types (f : A -> list B) (l : list A).

Lemma length_flat_map_const f l (m : nat) :
  (forall a, length (f a) = m) -> length (flat_map f l) = (length l * m)%nat.
Proof.
  intros Hf. induction l as [|a l IH]; simpl; [reflexivity|].
  rewrite length_app, Hf, IH. reflexivity.
Qed.

Lemma lookup_flat_map_const f l (m k r : nat) :
  (forall a, length (f a) = m) -> (r < m)%nat ->
  flat_map f l !! (k * m + r)%nat = l !! k ≫= (fun a => f a !! r).
Proof.
  intros Hf Hr. revert k. induction l as [|a l IH]; intros k; simpl.
  - destruct k; reflexivity.
  - destruct k as [|k]; simpl.
    + apply lookup_app_l. rewrite Hf. exact Hr.
    + rewrite lookup_app_r by (rewrite Hf; lia).
      rewrite Hf. replace (m + k * m + r - m)%nat with (k * m + r)%nat by lia.
      apply IH.
Qed.

End FlatArrays.

Lemma rotateXDown_vertices {A : Type} (a b c : A -> Q) (l : list A) (rest : list Q) :
  rotateXDown (flat_map (fun k => [a k; b k; c k]) l ++ rest)
  = flat_map (fun k => [a k; c k; (- b k)%Q]) l ++ rotateXDown rest.
Proof.
  induction l as [|k l IH]; simpl; [reflexivity|]. rewrite IH. reflexivity.
Qed.

Lemma rotateXDown_plane width height wSeg hSeg :
  rotateXDown (planePositions width height wSeg hSeg)
  = flat_map (fun iy => flat_map (groundVertex width height wSeg hSeg iy) (seq 0 (S wSeg)))
             (seq 0 (S hSeg)).
Proof.
  unfold planePositions. generalize (seq 0 (S hSeg)) as rows.
  induction rows as [|iy rows IH]; [reflexivity|].
  cbn [flat_map]. unfold planeRow at 1, planeVertex.
  rewrite rotateXDown_vertices, IH. reflexivity.
Qed.

Lemma length_ground_plane width height wSeg hSeg :
  length (rotateXDown (planePositions width height wSeg hSeg))
  = (S hSeg * (S wSeg * 3))%nat.
Proof.
  rewrite rotateXDown_plane.
  rewrite (length_flat_map_const _ _ (S wSeg * 3)).
  - rewrite length_seq. reflexivity.
  - intros iy. rewrite (length_flat_map_const _ _ 3) by reflexivity.
    rewrite length_seq. reflexivity.
Qed.

Lemma lookup_ground_plane width height wSeg hSeg (iy ix r : nat) :
  (iy <= hSeg)%nat -> (ix <= wSeg)%nat -> (r < 3)%nat ->
  rotateXDown (planePositions width height wSeg hSeg) !! ((iy * S wSeg + ix) * 3 + r)%nat
  = groundVertex width height wSeg hSeg iy ix !! r.
Proof.
  intros Hy Hx Hr. rewrite rotateXDown_plane.
  replace ((iy * S wSeg + ix) * 3 + r)%nat with (iy * (S wSeg * 3) + (ix * 3 + r))%nat by lia.
  rewrite (lookup_flat_map_const _ _ (S wSeg * 3)).
  - rewrite lookup_seq_lt by lia. cbn [mbind option_bind].
    rewrite (lookup_flat_map_const _ _ 3) by (reflexivity || lia).
    rewrite lookup_seq_lt by lia. reflexivity.
  - intros a. rewrite (length_flat_map_const _ _ 3) by reflexivity.
    rewrite length_seq. reflexivity.
  - lia.
Qed.

(** ** The loop of [createTerrain] *)

Section TerrainLoopFacts.
Variable noiseFn : Q -> Q -> Q -> Q.

Lemma terrainLoop_length n i j st :
  length (data (terrainLoop noiseFn n i j st)) = length (data st)
  /\ length (vertices (terrainLoop noiseFn n i j st)) = length (vertices st).
Proof.
  revert i j st. induction n as [|n IH]; intros i j st; simpl; [tauto|].
  destruct (IH (i + 1)%nat (j + 3)%nat (terrainStep noiseFn i j st)) as [-> ->].
  unfold terrainStep; simpl. rewrite !length_insert. tauto.
Qed.

(** Slot [k] of [data] after [n] iterations from counter [i]. *)
Lemma terrainLoop_data_lookup n i j st (k : nat) :
  (k < length (data st))%nat ->
  data (terrainLoop noiseFn n i j st) !! k
  = if decide (i <= k < i + n)%nat then Some (sample noiseFn k) else data st !! k.
Proof.
  revert i j st. induction n as [|n IH]; intros i j st Hk; simpl.
  - destruct (decide _) as [H|H]; [lia|reflexivity].
  - rewrite IH by (unfold terrainStep; simpl; rewrite length_insert; exact Hk).
    unfold terrainStep; simpl.
    destruct (decide (i + 1 <= k < i + 1 + n)%nat) as [H1|H1];
      destruct (decide (i <= k < i + S n)%nat) as [H2|H2]; try lia; try reflexivity.
    + assert (k = i) by lia; subst k. apply list_lookup_insert_eq. exact Hk.
    + apply list_lookup_insert_ne. lia.
Qed.

(** Slot [r] of vertex [k] after [n] iterations from counter [i]. *)
Lemma terrainLoop_vertices_lookup n i st (k r : nat) :
  (r < 3)%nat -> (k * 3 + r < length (vertices st))%nat ->
  vertices (terrainLoop noiseFn n i (i * 3) st) !! (k * 3 + r)%nat
  = if decide (r = 1%nat /\ (i <= k < i + n)%nat)
    then Some (vertexHeight noiseFn k)
    else vertices st !! (k * 3 + r)%nat.
Proof.
  revert i st. induction n as [|n IH]; intros i st Hr Hk; simpl.
  - destruct (decide _) as [H|H]; [lia|reflexivity].
  - replace (i * 3 + 3)%nat with ((i + 1) * 3)%nat by lia.
    rewrite IH by (unfold terrainStep; simpl; rewrite ?length_insert; assumption).
    unfold terrainStep; simpl.
    destruct (decide (r = 1%nat /\ (i + 1 <= k < i + 1 + n)%nat)) as [H1|H1];
      destruct (decide (r = 1%nat /\ (i <= k < i + S n)%nat)) as [H2|H2];
      try lia; try reflexivity.
    + assert (k = i /\ r = 1%nat) as [-> ->] by lia.
      apply list_lookup_insert_eq. exact Hk.
    + apply list_lookup_insert_ne. lia.
Qed.

Lemma size_nat : Z.to_nat size = (128 * 128)%nat.
Proof. unfold size, worldWidth, worldDepth, resolution. lia. Qed.

Lemma segments_nat :
  Z.to_nat (worldWidth - 1) = 127%nat /\ Z.to_nat (worldDepth - 1) = 127%nat.
Proof. split; reflexivity. Qed.

Lemma length_initial_vertices :
  length (vertices initialTerrainState) = (Z.to_nat size * 3)%nat.
Proof.
  unfold initialTerrainState; cbn [vertices]. rewrite length_ground_plane.
  destruct segments_nat as [-> ->]. rewrite size_nat. lia.
Qed.

Lemma length_built_data : length (data (builtTerrainState noiseFn)) = Z.to_nat size.
Proof.
  unfold builtTerrainState.
  destruct (terrainLoop_length (Z.to_nat size) 0 0 initialTerrainState) as [-> _].
  unfold initialTerrainState; cbn [data]. apply length_replicate.
Qed.

Lemma length_built_vertices :
  length (vertices (builtTerrainState noiseFn)) = (Z.to_nat size * 3)%nat.
Proof.
  unfold builtTerrainState.
  destruct (terrainLoop_length (Z.to_nat size) 0 0 initialTerrainState) as [_ ->].
  apply length_initial_vertices.
Qed.

Lemma built_data_lookup (k : nat) :
  (k < Z.to_nat size)%nat ->
  data (builtTerrainState noiseFn) !! k = Some (sample noiseFn k).
Proof.
  intros Hk. unfold builtTerrainState.
  rewrite terrainLoop_data_lookup
    by (unfold initialTerrainState; cbn [data]; rewrite length_replicate; exact Hk).
  destruct (decide _) as [H|H]; [reflexivity|lia].
Qed.

Lemma built_getY (index : Z) :
  0 <= index < size ->
  getY (builtPosition noiseFn) index = Some (vertexHeight noiseFn (Z.to_nat index)).
Proof.
  intros Hi. unfold getY, getComponent, builtPosition; cbn [array itemSize].
  destruct (index <? 0) eqn:E; [apply Z.ltb_lt in E; lia|].
  unfold builtTerrainState.
  change 0%nat with (0 * 3)%nat at 2.
  rewrite terrainLoop_vertices_lookup.
  - destruct (decide _) as [H|H]; [reflexivity|lia].
  - lia.
  - rewrite length_initial_vertices. lia.
Qed.

Lemma built_getXZ (ix iy : Z) (r : nat) :
  0 <= ix < worldWidth -> 0 <= iy < worldDepth -> r <> 1%nat -> (r < 3)%nat ->
  getComponent (builtPosition noiseFn) (iy * worldWidth + ix) r
  = groundVertex terrainWidth terrainDepth
      (Z.to_nat (worldWidth - 1)) (Z.to_nat (worldDepth - 1))
      (Z.to_nat iy) (Z.to_nat ix) !! r.
Proof.
  intros Hx Hy Hr1 Hr. unfold getComponent, builtPosition; cbn [array itemSize].
  assert (Hw : worldWidth = 128) by reflexivity.
  assert (Hd : worldDepth = 128) by reflexivity.
  destruct (_ <? 0) eqn:E; [apply Z.ltb_lt in E; lia|].
  unfold builtTerrainState.
  change 0%nat with (0 * 3)%nat at 2.
  rewrite terrainLoop_vertices_lookup.
  - destruct (decide _) as [H|H]; [lia|].
    unfold initialTerrainState; cbn [vertices].
    replace (Z.to_nat (iy * worldWidth + ix))
      with (Z.to_nat iy * S (Z.to_nat (worldWidth - 1)) + Z.to_nat ix)%nat by lia.
    apply lookup_ground_plane; lia.
  - exact Hr.
  - rewrite length_initial_vertices. rewrite size_nat. lia.
Qed.

End TerrainLoopFacts.

(** ** Numeric primitives *)

Section NumericFacts.
Local Open Scope Q_scope.

Lemma trunc_nonneg (q : Q) : 0 <= q -> JS.trunc q = Qfloor q.
Proof.
  destruct q as [n d]. unfold Qle, JS.trunc, Qfloor; simpl. intros H.
  apply Z.quot_div_nonneg; lia.
Qed.

Lemma trunc_nonpos (q : Q) : q <= 0 -> JS.trunc q = Qceiling q.
Proof.
  destruct q as [n d]. unfold Qle, JS.trunc, Qceiling, Qfloor; simpl. intros H.
  rewrite <- (Z.opp_involutive n) at 1.
  rewrite Z.quot_opp_l by lia.
  rewrite Z.quot_div_nonneg by lia. reflexivity.
Qed.

Lemma trunc_comp (a b : Q) : a == b -> JS.trunc a = JS.trunc b.
Proof.
  intros E. destruct (Qlt_le_dec a 0) as [H|H].
  - rewrite !trunc_nonpos by lra. now rewrite E.
  - rewrite !trunc_nonneg by lra. now rewrite E.
Qed.

Lemma trunc_inject_Z (k : Z) : JS.trunc (inject_Z k) = k.
Proof. unfold JS.trunc; simpl. apply Z.quot_1_r. Qed.

Lemma rem_comp (a a' b b' : Q) : a == a' -> b == b' -> JS.rem a b == JS.rem a' b'.
Proof.
  intros Ea Eb. unfold JS.rem.
  rewrite (trunc_comp (a / b) (a' / b')) by now rewrite Ea, Eb.
  now rewrite Ea, Eb.
Qed.

(** An exact multiple of the divisor leaves no remainder. *)
Lemma rem_multiple (a b : Q) (k : Z) : ~ b == 0 -> a == inject_Z k * b -> JS.rem a b == 0.
Proof.
  intros Hb E. unfold JS.rem.
  rewrite (trunc_comp (a / b) (inject_Z k)) by (rewrite E; field; exact Hb).
  rewrite trunc_inject_Z, E. ring.
Qed.

(** A remainder taken short of the first multiple is the dividend
    itself, sign included. *)
Lemma rem_small (a b : Q) : 0 < b -> - b < a -> a < b -> JS.rem a b == a.
Proof.
  intros Hb Hlo Hhi. unfold JS.rem.
  assert (Hq : - (1) < a / b /\ a / b < 1).
  { split.
    - apply Qlt_shift_div_l; [exact Hb|lra].
    - apply Qlt_shift_div_r; [exact Hb|lra]. }
  assert (JS.trunc (a / b) = 0%Z) as ->.
  { destruct (Qlt_le_dec (a / b) 0) as [H|H].
    - rewrite trunc_nonpos by lra. unfold Qceiling.
      pose proof (Qfloor_le (- (a / b))) as H1.
      pose proof (Qlt_floor (- (a / b))) as H2.
      assert (H3 : (0 <= Qfloor (- (a / b)))%Z).
      { change 0%Z with (Qfloor 0). apply Qfloor_resp_le. lra. }
      assert (H5 : (Qfloor (- (a / b)) < 1)%Z).
      { rewrite Zlt_Qlt. change (inject_Z 1) with 1. lra. }
      lia.
    - rewrite trunc_nonneg by lra.
      assert (H3 : (0 <= Qfloor (a / b))%Z).
      { change 0%Z with (Qfloor 0). apply Qfloor_resp_le. exact H. }
      assert (H5 : (Qfloor (a / b) < 1)%Z).
      { rewrite Zlt_Qlt. change (inject_Z 1) with 1. pose proof (Qfloor_le (a / b)). lra. }
      lia. }
  ring.
Qed.

(** For a non-negative dividend the remainder lies in [[0, b)]. *)
Lemma rem_range (a b : Q) : 0 <= a -> 0 < b -> 0 <= JS.rem a b /\ JS.rem a b < b.
Proof.
  intros Ha Hb. unfold JS.rem.
  assert (Hab : 0 <= a / b) by (apply Qle_shift_div_l; [exact Hb|lra]).
  rewrite trunc_nonneg by exact Hab.
  pose proof (Qfloor_le (a / b)) as H1.
  pose proof (Qlt_floor (a / b)) as H2.
  rewrite inject_Z_plus in H2. change (inject_Z 1) with 1 in H2.
  set (f := inject_Z (Qfloor (a / b))) in *.
  assert (Ea : a == a / b * b) by (field; lra).
  assert (H3 : 0 <= b * (a / b - f)) by (apply Qmult_le_0_compat; lra).
  assert (H4 : b * (a / b - f) < b * 1) by (apply Qmult_lt_l; [exact Hb|lra]).
  split; lra.
Qed.

Lemma ToUint8_range (q : Q) : (0 <= JS.ToUint8 q < 256)%Z.
Proof. unfold JS.ToUint8. apply Z.mod_pos_bound. lia. Qed.

(** On [[0, 256)] the conversion is [Math.floor]. *)
Lemma ToUint8_floor (q : Q) : 0 <= q -> q < 256 -> JS.ToUint8 q = Qfloor q.
Proof.
  intros H0 H1. unfold JS.ToUint8. rewrite trunc_nonneg by exact H0.
  apply Z.mod_small. split.
  - change 0%Z with (Qfloor 0). apply Qfloor_resp_le. exact H0.
  - rewrite Zlt_Qlt. change (inject_Z 256) with 256. pose proof (Qfloor_le q). lra.
Qed.

(** The primitives on small inputs. *)
Example rem_positive : JS.rem 7 3 == 1.
Proof. reflexivity. Qed.

Example rem_negative : JS.rem (-7) 3 == -1.
Proof. reflexivity. Qed.

Example rem_fraction : JS.rem (-1) (400 # 127) == -1.
Proof. reflexivity. Qed.

Example floor_negative : JS.floor (- (3175 # 10000)) = (-1)%Z.
Proof. reflexivity. Qed.

Example ToUint8_truncates : JS.ToUint8 (6336 # 100) = 63%Z.
Proof. reflexivity. Qed.

Example ToUint8_wraps : JS.ToUint8 300 = 44%Z.
Proof. reflexivity. Qed.

Example gridX_left_of_terrain : gridX (-201) = (-1)%Z /\ clampedGridX (-201) = 0%Z.
Proof. split; reflexivity. Qed.

Example gridX_right_of_terrain : gridX 1000 = 381%Z /\ clampedGridX 1000 = 126%Z.
Proof. split; reflexivity. Qed.

Example fracU_right_of_terrain : fracU 201 == 127 # 400.
Proof. reflexivity. Qed.

Lemma cellWidth_value : cellWidth == 400 # 127.
Proof. reflexivity. Qed.

Lemma cellDepth_value : cellDepth == 800 # 127.
Proof. reflexivity. Qed.

(** A bilinear combination with weights in the unit square stays
    between any bounds of the four corners. *)
Lemma bilinear_between (u v y00 y10 y01 y11 lo hi : Q) :
  0 <= u <= 1 -> 0 <= v <= 1 ->
  lo <= y00 <= hi -> lo <= y10 <= hi -> lo <= y01 <= hi -> lo <= y11 <= hi ->
  lo <= bilinear u v y00 y10 y01 y11 <= hi.
Proof.
  intros Hu Hv H00 H10 H01 H11.
  assert (E : forall c, bilinear u v y00 y10 y01 y11 - c
      == (1 - u) * (1 - v) * (y00 - c) + u * (1 - v) * (y10 - c)
         + (1 - u) * v * (y01 - c) + u * v * (y11 - c))
    by (intros c; unfold bilinear; ring).
  assert (W1 : 0 <= (1 - u) * (1 - v)) by (apply Qmult_le_0_compat; lra).
  assert (W2 : 0 <= u * (1 - v)) by (apply Qmult_le_0_compat; lra).
  assert (W3 : 0 <= (1 - u) * v) by (apply Qmult_le_0_compat; lra).
  assert (W4 : 0 <= u * v) by (apply Qmult_le_0_compat; lra).
  split.
  - pose proof (E lo) as El.
    assert (0 <= (1 - u) * (1 - v) * (y00 - lo)) by (apply Qmult_le_0_compat; lra).
    assert (0 <= u * (1 - v) * (y10 - lo)) by (apply Qmult_le_0_compat; lra).
    assert (0 <= (1 - u) * v * (y01 - lo)) by (apply Qmult_le_0_compat; lra).
    assert (0 <= u * v * (y11 - lo)) by (apply Qmult_le_0_compat; lra).
    lra.
  - pose proof (E hi) as Eh.
    assert (0 <= (1 - u) * (1 - v) * (hi - y00)) by (apply Qmult_le_0_compat; lra).
    assert (0 <= u * (1 - v) * (hi - y10)) by (apply Qmult_le_0_compat; lra).
    assert (0 <= (1 - u) * v * (hi - y01)) by (apply Qmult_le_0_compat; lra).
    assert (0 <= u * v * (hi - y11)) by (apply Qmult_le_0_compat; lra).
    assert (E2 : hi - bilinear u v y00 y10 y01 y11
      == (1 - u) * (1 - v) * (hi - y00) + u * (1 - v) * (hi - y10)
         + (1 - u) * v * (hi - y01) + u * v * (hi - y11))
      by (unfold bilinear; ring).
    lra.
Qed.

End NumericFacts.

(** ** Height query *)

Section HeightQueryFacts.
Local Open Scope Q_scope.

Lemma clampedGridX_range (x : Q) : (0 <= clampedGridX x <= worldWidth - 2)%Z.
Proof. unfold clampedGridX, worldWidth, resolution. lia. Qed.

Lemma clampedGridZ_range (z : Q) : (0 <= clampedGridZ z <= worldDepth - 2)%Z.
Proof. unfold clampedGridZ, worldDepth, resolution. lia. Qed.

Lemma corner_indices_range (x z : Q) :
  (0 <= p00Index x z < size)%Z /\ (0 <= p10Index x z < size)%Z /\
  (0 <= p01Index x z < size)%Z /\ (0 <= p11Index x z < size)%Z.
Proof.
  pose proof (clampedGridX_range x) as Hx.
  pose proof (clampedGridZ_range z) as Hz.
  unfold p00Index, p10Index, p01Index, p11Index, size.
  unfold worldWidth, worldDepth, resolution in *. lia.
Qed.

Variable noiseFn : Q -> Q -> Q -> Q.

Lemma getTerrainHeight_built (x z : Q) :
  getTerrainHeight (Some (createTerrain noiseFn)) x z
  = interpolate (builtPosition noiseFn) x z.
Proof. reflexivity. Qed.

Lemma interpolate_built (x z : Q) :
  interpolate (builtPosition noiseFn) x z
  = Some (bilinear (fracU x) (fracV z)
            (vertexHeight noiseFn (Z.to_nat (p00Index x z)))
            (vertexHeight noiseFn (Z.to_nat (p10Index x z)))
            (vertexHeight noiseFn (Z.to_nat (p01Index x z)))
            (vertexHeight noiseFn (Z.to_nat (p11Index x z)))).
Proof.
  destruct (corner_indices_range x z) as (H00 & H10 & H01 & H11).
  unfold interpolate. rewrite !built_getY by assumption. reflexivity.
Qed.

Lemma count_builtPosition :
  Z.of_nat (count (builtPosition noiseFn)) = (worldWidth * worldDepth)%Z.
Proof.
  unfold count, builtPosition; cbn [array itemSize].
  rewrite length_built_vertices, Nat.div_mul by lia.
  rewrite size_nat. unfold worldWidth, worldDepth, resolution. lia.
Qed.

(** Inside the near edges the fractional offsets are proper weights. *)
Lemma fracU_range (x : Q) : - (terrainWidth / 2) <= x -> 0 <= fracU x /\ fracU x < 1.
Proof.
  intros Hx. unfold fracU.
  assert (Hc : 0 < cellWidth) by reflexivity.
  destruct (rem_range (x + terrainWidth / 2) cellWidth) as [H0 H1]; [lra|exact Hc|].
  split.
  - apply Qle_shift_div_l; [exact Hc|lra].
  - apply Qlt_shift_div_r; [exact Hc|lra].
Qed.

Lemma fracV_range (z : Q) : - (terrainDepth / 2) <= z -> 0 <= fracV z /\ fracV z < 1.
Proof.
  intros Hz. unfold fracV.
  assert (Hc : 0 < cellDepth) by reflexivity.
  destruct (rem_range (z + terrainDepth / 2) cellDepth) as [H0 H1]; [lra|exact Hc|].
  split.
  - apply Qle_shift_div_l; [exact Hc|lra].
  - apply Qlt_shift_div_r; [exact Hc|lra].
Qed.

(** A coordinate that sits exactly on column [ix] falls in cell [ix]
    with offset zero. *)
Lemma on_column (x : Q) (ix : Z) :
  (0 <= ix <= worldWidth - 2)%Z ->
  x == inject_Z ix * cellWidth - terrainWidth / 2 ->
  clampedGridX x = ix /\ fracU x == 0.
Proof.
  intros Hix Ex.
  assert (Hc : ~ cellWidth == 0) by discriminate.
  assert (El : x + terrainWidth / 2 == inject_Z ix * cellWidth) by (rewrite Ex; ring).
  split.
  - unfold clampedGridX, gridX, JS.floor.
    rewrite (Qfloor_comp _ (inject_Z ix)) by (rewrite El; field; exact Hc).
    rewrite Qfloor_Z. lia.
  - unfold fracU. rewrite (rem_multiple _ _ ix Hc El). field. exact Hc.
Qed.

Lemma on_row (z : Q) (iy : Z) :
  (0 <= iy <= worldDepth - 2)%Z ->
  z == inject_Z iy * cellDepth - terrainDepth / 2 ->
  clampedGridZ z = iy /\ fracV z == 0.
Proof.
  intros Hiy Ez.
  assert (Hc : ~ cellDepth == 0) by discriminate.
  assert (El : z + terrainDepth / 2 == inject_Z iy * cellDepth) by (rewrite Ez; ring).
  split.
  - unfold clampedGridZ, gridZ, JS.floor.
    rewrite (Qfloor_comp _ (inject_Z iy)) by (rewrite El; field; exact Hc).
    rewrite Qfloor_Z. lia.
  - unfold fracV. rewrite (rem_multiple _ _ iy Hc El). field. exact Hc.
Qed.

End HeightQueryFacts.

(** ** Stored samples and vertex heights *)

Section StoredHeights.
Local Open Scope Q_scope.
Variable noiseFn : Q -> Q -> Q -> Q.


(** A sample of a noise value in [[-1, 1]] is the floor of the value
    rescaled to [[0, 128]]. *)
Lemma ToUint8_normalised (n : Q) :
  - (1) <= n <= 1 ->
  JS.ToUint8 ((n * (1 # 2) + (1 # 2)) * 128) = Qfloor ((n * (1 # 2) + (1 # 2)) * 128)
  /\ (0 <= JS.ToUint8 ((n * (1 # 2) + (1 # 2)) * 128) <= 128)%Z.
Proof.
  intros Hn.
  assert (E : JS.ToUint8 ((n * (1 # 2) + (1 # 2)) * 128)
              = Qfloor ((n * (1 # 2) + (1 # 2)) * 128))
    by (apply ToUint8_floor; lra).
  split; [exact E|]. rewrite E.
  assert (H0 : (Qfloor 0 <= Qfloor ((n * (1 # 2) + (1 # 2)) * 128))%Z)
    by (apply Qfloor_resp_le; lra).
  assert (H1 : (Qfloor ((n * (1 # 2) + (1 # 2)) * 128) <= Qfloor 128)%Z)
    by (apply Qfloor_resp_le; lra).
  change (Qfloor 0) with 0%Z in H0. change (Qfloor 128) with 128%Z in H1.
  split; assumption.
Qed.

Hypothesis noise_range : forall x y z, - (1) <= noiseFn x y z <= 1.

Lemma sample_range (k : nat) : (0 <= sample noiseFn k <= 128)%Z.
Proof. unfold sample. apply ToUint8_normalised, noise_range. Qed.

Lemma vertexHeight_range (k : nat) : 0 <= vertexHeight noiseFn k <= heightScale.
Proof.
  pose proof (sample_range k) as [H0 H1].
  rewrite Zle_Qle in H0, H1. change (inject_Z 0) with 0 in H0.
  change (inject_Z 128) with 128 in H1.
  unfold vertexHeight, heightScale.
  assert (E : 30 / 128 == 15 # 64) by (vm_compute; reflexivity).
  rewrite E. lra.
Qed.

End StoredHeights.

(** ** Claims about the height query and the heightfield *)

Section HeightClaims.
Local Open Scope Q_scope.

Lemma below_all_corners_not_convex (h y00 y10 y01 y11 : Q) :
  h < y00 -> h < y10 -> h < y01 -> h < y11 ->
  ~ isConvexCombination h y00 y10 y01 y11.
Proof.
  intros H00 H10 H01 H11 (a & b & c & d & Ha & Hb & Hc & Hd & Hs & E).
  assert (Pa : 0 <= a * (y00 - h)) by (apply Qmult_le_0_compat; lra).
  assert (Pb : 0 <= b * (y10 - h)) by (apply Qmult_le_0_compat; lra).
  assert (Pc : 0 <= c * (y01 - h)) by (apply Qmult_le_0_compat; lra).
  assert (Pd : 0 <= d * (y11 - h)) by (apply Qmult_le_0_compat; lra).
  assert (Z0 : a * (y00 - h) + b * (y10 - h) + c * (y01 - h) + d * (y11 - h) == 0).
  { transitivity (a * y00 + b * y10 + c * y01 + d * y11 - h * (a + b + c + d)); [ring|].
    rewrite Hs, <- E. ring. }
  assert (Za : a * (y00 - h) == 0) by lra.
  assert (Zb : b * (y10 - h) == 0) by lra.
  assert (Zc : c * (y01 - h) == 0) by lra.
  assert (Zd : d * (y11 - h) == 0) by lra.
  apply Qmult_integral in Za, Zb, Zc, Zd.
  destruct Za as [Za|Za]; [|lra]. destruct Zb as [Zb|Zb]; [|lra].
  destruct Zc as [Zc|Zc]; [|lra]. destruct Zd as [Zd|Zd]; [|lra].
  lra.
Qed.

(** On and beyond the near edges of the terrain the query does return
    a convex combination of the four corner heights. *)
Lemma getTerrainHeight_convex_inside (noiseFn : Q -> Q -> Q -> Q) (x z : Q) :
  - (terrainWidth / 2) <= x -> - (terrainDepth / 2) <= z ->
  exists h,
    getTerrainHeight (Some (createTerrain noiseFn)) x z = Some h
    /\ isConvexCombination h
         (vertexHeight noiseFn (Z.to_nat (p00Index x z)))
         (vertexHeight noiseFn (Z.to_nat (p10Index x z)))
         (vertexHeight noiseFn (Z.to_nat (p01Index x z)))
         (vertexHeight noiseFn (Z.to_nat (p11Index x z))).
Proof.
  intros Hx Hz. rewrite getTerrainHeight_built, interpolate_built.
  eexists; split; [reflexivity|].
  destruct (fracU_range x Hx) as [Hu0 Hu1].
  destruct (fracV_range z Hz) as [Hv0 Hv1].
  exists ((1 - fracU x) * (1 - fracV z)), (fracU x * (1 - fracV z)),
         ((1 - fracU x) * fracV z), (fracU x * fracV z).
  split; [apply Qmult_le_0_compat; lra|].
  split; [apply Qmult_le_0_compat; lra|].
  split; [apply Qmult_le_0_compat; lra|].
  split; [apply Qmult_le_0_compat; lra|].
  split; [ring|]. unfold bilinear. ring.
Qed.

(** C4: for every input [(x, z)] the clamped cell indices lie in
    [[0, W-2]] and [[0, D-2]], the four corner indices are positions of
    the [W * D] vertex buffer, each of the four reads succeeds, and the
    query returns a number. *)
Theorem getTerrainHeight_reads_in_bounds (noiseFn : Q -> Q -> Q -> Q) (x z : Q) :
  (0 <= clampedGridX x <= worldWidth - 2)%Z
  /\ (0 <= clampedGridZ z <= worldDepth - 2)%Z
  /\ Z.of_nat (count (builtPosition noiseFn)) = (worldWidth * worldDepth)%Z
  /\ Forall (fun p => (0 <= p < worldWidth * worldDepth)%Z
                      /\ is_Some (getY (builtPosition noiseFn) p))
            [p00Index x z; p10Index x z; p01Index x z; p11Index x z]
  /\ is_Some (getTerrainHeight (Some (createTerrain noiseFn)) x z).
Proof.
  destruct (corner_indices_range x z) as (H00 & H10 & H01 & H11).
  split; [apply clampedGridX_range|].
  split; [apply clampedGridZ_range|].
  split; [apply count_builtPosition|].
  split.
  - repeat constructor; try (fold size; lia);
      rewrite built_getY by assumption; eexists; reflexivity.
  - rewrite getTerrainHeight_built, interpolate_built. eexists; reflexivity.
Qed.

(** C9: while the terrain mesh, its geometry or its position attribute
    is missing, the query answers 0 at every input. *)
Theorem getTerrainHeight_terrain_not_ready (terrainMesh : option Mesh) (x z : Q) :
  terrainPosition terrainMesh = None ->
  getTerrainHeight terrainMesh x z = Some 0.
Proof.
  unfold terrainPosition, getTerrainHeight.
  destruct terrainMesh as [m|]; cbn; [|reflexivity].
  destruct (geometry m) as [g|]; cbn; [|reflexivity].
  destruct (position g) as [pos|]; cbn; [discriminate|reflexivity].
Qed.

Lemma getTerrainHeight_terrain_not_ready_witness :
  terrainPosition (Some (mkMesh None (mkVec3 0 0 0) (mkQuat 0 0 0 1) (mkVec3 1 1 1) false false))
    = None
  /\ getTerrainHeight
       (Some (mkMesh None (mkVec3 0 0 0) (mkQuat 0 0 0 1) (mkVec3 1 1 1) false false))
       (-250) 1000 = Some 0.
Proof.
  split; [reflexivity|].
  apply getTerrainHeight_terrain_not_ready. reflexivity.
Defined.

(** In exact arithmetic the weights do degenerate at a grid vertex:
    the query there returns the stored height.  The code's own
    arithmetic is treated in
    [height_at_interior_vertex_is_not_the_stored_height]. *)
Theorem height_at_interior_vertex (noiseFn : Q -> Q -> Q -> Q) (ix iy : Z) (x y z : Q) :
  (0 <= ix < worldWidth)%Z -> (0 <= iy < worldDepth)%Z ->
  getX (builtPosition noiseFn) (iy * worldWidth + ix) = Some x ->
  getY (builtPosition noiseFn) (iy * worldWidth + ix) = Some y ->
  getZ (builtPosition noiseFn) (iy * worldWidth + ix) = Some z ->
  - (terrainWidth / 2) < x /\ x < terrainWidth / 2 ->
  - (terrainDepth / 2) < z /\ z < terrainDepth / 2 ->
  exists h, getTerrainHeight (Some (createTerrain noiseFn)) x z = Some h /\ h == y.
Proof.
  intros Hix Hiy Gx Gy Gz [Hx0 Hx1] [Hz0 Hz1].
  assert (Hw : worldWidth = 128%Z) by reflexivity.
  assert (Hd : worldDepth = 128%Z) by reflexivity.
  unfold getX in Gx. rewrite built_getXZ in Gx by (assumption || lia).
  unfold getZ in Gz. rewrite built_getXZ in Gz by (assumption || lia).
  cbn [groundVertex lookup list_lookup] in Gx, Gz.
  injection Gx as Gx. injection Gz as Gz.
  rewrite !Z2Nat.id in Gx, Gz by lia.
  assert (Ex : x == inject_Z ix * cellWidth - terrainWidth / 2)
    by (rewrite <- Gx; reflexivity).
  assert (Ez : z == inject_Z iy * cellDepth - terrainDepth / 2)
    by (rewrite <- Gz; unfold cellDepth; ring).
  assert (Bx : (0 <= ix <= worldWidth - 2)%Z).
  { assert (E1 : inject_Z ix * cellWidth == inject_Z ix * (400 # 127))
      by (rewrite cellWidth_value; reflexivity).
    assert (E2 : terrainWidth / 2 == 200) by reflexivity.
    rewrite E1 in Ex. rewrite E2 in Ex, Hx1.
    assert (L : inject_Z ix < inject_Z 127)
      by (change (inject_Z 127) with 127; lra).
    rewrite <- Zlt_Qlt in L. lia. }
  assert (Bz : (0 <= iy <= worldDepth - 2)%Z).
  { assert (E1 : inject_Z iy * cellDepth == inject_Z iy * (800 # 127))
      by (rewrite cellDepth_value; reflexivity).
    assert (E2 : terrainDepth / 2 == 400) by reflexivity.
    rewrite E1 in Ez. rewrite E2 in Ez, Hz1.
    assert (L : inject_Z iy < inject_Z 127)
      by (change (inject_Z 127) with 127; lra).
    rewrite <- Zlt_Qlt in L. lia. }
  destruct (on_column x ix Bx Ex) as [Cx Ux].
  destruct (on_row z iy Bz Ez) as [Cz Vz].
  rewrite getTerrainHeight_built, interpolate_built.
  eexists; split; [reflexivity|].
  rewrite built_getY in Gy by (unfold size; lia). injection Gy as Gy.
  unfold p00Index. rewrite Cx, Cz, Gy.
  unfold bilinear. rewrite Ux, Vz. ring.
Qed.

End HeightClaims.

Section HeightfieldClaims.
Local Open Scope Q_scope.

Lemma rampNoise_range (x y z : Q) : - (1) <= rampNoise x y z <= 1.
Proof.
  unfold rampNoise. split.
  - apply Q.le_max_l.
  - apply Q.max_lub; [discriminate|apply Q.le_min_l].
Qed.




(** C5: with resolution 128, extents 400 by 800 and height scale 30,
    the grid has 16384 samples and, for a noise function with values
    in [[-1, 1]], every vertex height lies in [[0, 30]]. *)
Theorem built_grid_size_and_height_range (noiseFn : Q -> Q -> Q -> Q) :
  (forall x y z, - (1) <= noiseFn x y z <= 1) ->
  resolution = 128%Z /\ terrainWidth == 400 /\ terrainDepth == 800 /\ heightScale == 30
  /\ Z.of_nat (length (data (builtTerrainState noiseFn))) = (128 * 128)%Z
  /\ Z.of_nat (length (data (builtTerrainState noiseFn))) = 16384%Z
  /\ Z.of_nat (count (builtPosition noiseFn)) = 16384%Z
  /\ forall index : Z, (0 <= index < 16384)%Z ->
       exists h, getY (builtPosition noiseFn) index = Some h /\ 0 <= h <= 30.
Proof.
  intros Hn.
  split; [reflexivity|]. split; [reflexivity|]. split; [reflexivity|].
  split; [reflexivity|].
  rewrite length_built_data, count_builtPosition, size_nat.
  split; [lia|]. split; [lia|]. split; [reflexivity|].
  intros index Hi. exists (vertexHeight noiseFn (Z.to_nat index)).
  split; [apply built_getY; exact Hi|].
  apply (vertexHeight_range noiseFn Hn).
Qed.

Lemma built_grid_size_and_height_range_witness :
  resolution = 128%Z /\ terrainWidth == 400 /\ terrainDepth == 800 /\ heightScale == 30
  /\ Z.of_nat (length (data (builtTerrainState rampNoise))) = (128 * 128)%Z
  /\ Z.of_nat (length (data (builtTerrainState rampNoise))) = 16384%Z
  /\ Z.of_nat (count (builtPosition rampNoise)) = 16384%Z
  /\ forall index : Z, (0 <= index < 16384)%Z ->
       exists h, getY (builtPosition rampNoise) index = Some h /\ 0 <= h <= 30.
Proof.
  apply (built_grid_size_and_height_range rampNoise). exact rampNoise_range.
Defined.

End HeightfieldClaims.

(** ** The query outside the terrain *)

Section OutsideTerrain.
Local Open Scope Q_scope.

(** One unit left of the terrain, on any grid row, the query
    extrapolates from the first two vertices of the row, whatever the
    noise; at the nearest terrain point it returns the first vertex. *)
Lemma left_of_terrain_extrapolates (noiseFn : Q -> Q -> Q -> Q) (iy : Z) (z : Q) :
  (0 <= iy <= worldDepth - 2)%Z ->
  z == inject_Z iy * cellDepth - terrainDepth / 2 ->
  exists h h',
    getTerrainHeight (Some (createTerrain noiseFn)) (-201) z = Some h
    /\ getTerrainHeight (Some (createTerrain noiseFn)) (-200) z = Some h'
    /\ h' == vertexHeight noiseFn (Z.to_nat (iy * worldWidth))
    /\ h == vertexHeight noiseFn (Z.to_nat (iy * worldWidth))
            + (127 # 400) * (vertexHeight noiseFn (Z.to_nat (iy * worldWidth))
                             - vertexHeight noiseFn (Z.to_nat (iy * worldWidth + 1))).
Proof.
  intros Hiy Ez. destruct (on_row z iy Hiy Ez) as [Cz Vz].
  assert (C1 : clampedGridX (-201) = 0%Z) by reflexivity.
  assert (C0 : clampedGridX (-200) = 0%Z) by reflexivity.
  assert (U1 : fracU (-201) == - (127 # 400)) by reflexivity.
  assert (U0 : fracU (-200) == 0) by reflexivity.
  rewrite !getTerrainHeight_built, !interpolate_built.
  eexists; eexists. split; [reflexivity|]. split; [reflexivity|].
  unfold p00Index, p10Index, p01Index, p11Index. rewrite C1, C0, Cz, !Z.add_0_r.
  unfold bilinear. rewrite U1, U0, Vz. split; ring.
Qed.

(** C1 fails on the code: one unit left of the terrain, on its near
    edge, the cell index is clamped to 0 but the offset along x is
    -127/400, taken from the unclamped coordinate; the query answers
    77181/5120 where the nearest terrain point gives 15. *)
Theorem height_left_of_terrain_not_clamped :
  fst (nearestTerrainPoint (-201) (-400)) == -200
  /\ snd (nearestTerrainPoint (-201) (-400)) == -400
  /\ clampedGridX (-201) = 0%Z
  /\ fracU (-201) == - (127 # 400)
  /\ exists h h',
       getTerrainHeight (Some (createTerrain rampNoise)) (-201) (-400) = Some h
       /\ getTerrainHeight (Some (createTerrain rampNoise))
            (fst (nearestTerrainPoint (-201) (-400)))
            (snd (nearestTerrainPoint (-201) (-400))) = Some h'
       /\ h == 77181 # 5120
       /\ h' == 15
       /\ ~ h == h'.
Proof.
  split; [vm_compute; reflexivity|].
  split; [vm_compute; reflexivity|].
  split; [vm_compute; reflexivity|].
  split; [vm_compute; reflexivity|].
  rewrite !getTerrainHeight_built, !interpolate_built.
  eexists; eexists.
  split; [reflexivity|]. split; [reflexivity|].
  split; [vm_compute; reflexivity|].
  split; [vm_compute; reflexivity|].
  intros H. vm_compute in H. discriminate H.
Qed.

(** C8 fails on the code in its last part: one unit before the near
    edge the offset along z is -127/800 and the result, 4419/320, lies
    below all four corner heights, so it is no convex combination of
    them. *)
Theorem height_before_terrain_not_convex :
  fracU (-200) == 0
  /\ fracV (-401) == - (127 # 800)
  /\ exists h y00 y10 y01 y11,
       getY (builtPosition rampNoise) (p00Index (-200) (-401)) = Some y00
       /\ getY (builtPosition rampNoise) (p10Index (-200) (-401)) = Some y10
       /\ getY (builtPosition rampNoise) (p01Index (-200) (-401)) = Some y01
       /\ getY (builtPosition rampNoise) (p11Index (-200) (-401)) = Some y11
       /\ getTerrainHeight (Some (createTerrain rampNoise)) (-200) (-401) = Some h
       /\ y00 == 15 /\ y10 == 945 # 64 /\ y01 == 45 # 2 /\ y11 == 1425 # 64
       /\ h == 4419 # 320
       /\ ~ isConvexCombination h y00 y10 y01 y11.
Proof.
  split; [vm_compute; reflexivity|].
  split; [vm_compute; reflexivity|].
  destruct (corner_indices_range (-200) (-401)) as (H00 & H10 & H01 & H11).
  rewrite getTerrainHeight_built, interpolate_built.
  rewrite !built_getY by assumption.
  do 5 eexists.
  do 5 (split; [reflexivity|]).
  split; [vm_compute; reflexivity|].
  split; [vm_compute; reflexivity|].
  split; [vm_compute; reflexivity|].
  split; [vm_compute; reflexivity|].
  split; [vm_compute; reflexivity|].
  apply below_all_corners_not_convex; vm_compute; reflexivity.
Qed.

End OutsideTerrain.

(** ** Road path generator *)

Section RoadFacts.
Local Open Scope Q_scope.

Variable sin : Q -> Q.
Variable tubeVertex : list Vec3 -> nat -> nat -> Vec3.
Variable getLength : list Vec3 -> Q.
Variable terrainMesh : option Mesh.

Lemma length_plannedPoints : length (plannedPoints sin) = S roadSegments.
Proof. unfold plannedPoints. rewrite length_map, length_seq. reflexivity. Qed.

Lemma length_tubePositions (pts : list Vec3) :
  length (tubePositions tubeVertex pts) = (S divisions * (S radialSegments * 3))%nat.
Proof.
  unfold tubePositions.
  rewrite (length_flat_map_const _ _ (S radialSegments * 3)).
  - rewrite length_seq. reflexivity.
  - intros i. unfold tubeRing.
    rewrite (length_flat_map_const _ _ 3) by reflexivity.
    rewrite length_seq. reflexivity.
Qed.

Lemma length_tubeUVs : length tubeUVs = (S divisions * (S radialSegments * 2))%nat.
Proof.
  unfold tubeUVs.
  rewrite (length_flat_map_const _ _ (S radialSegments * 2)).
  - rewrite length_seq. reflexivity.
  - intros i. rewrite (length_flat_map_const _ _ 2) by reflexivity.
    rewrite length_seq. reflexivity.
Qed.

(** The vertex count of a tube does not depend on the curve. *)
Lemma count_tubePositions (pts : list Vec3) :
  count (mkAttr (tubePositions tubeVertex pts) 3) = (S divisions * S radialSegments)%nat.
Proof.
  unfold count; cbn [array itemSize]. rewrite length_tubePositions.
  replace (S divisions * (S radialSegments * 3))%nat
    with (S divisions * S radialSegments * 3)%nat by lia.
  apply Nat.div_mul. discriminate.
Qed.

Lemma count_tubeUVs : count (mkAttr tubeUVs 2) = (S divisions * S radialSegments)%nat.
Proof.
  unfold count; cbn [array itemSize]. rewrite length_tubeUVs.
  replace (S divisions * (S radialSegments * 2))%nat
    with (S divisions * S radialSegments * 2)%nat by lia.
  apply Nat.div_mul. discriminate.
Qed.

(** The uv loop reads only vertices that exist and keeps the size of
    the array. *)
Lemma uvLoop_Some (pos : list Q) (roadLength : Q) (n i : nat) (uvArray : list Q) :
  ((i + n) * 3 <= length pos)%nat ->
  exists uvArray',
    uvLoop (mkAttr pos 3) roadLength n i uvArray = Some uvArray'
    /\ length uvArray' = length uvArray.
Proof.
  revert i uvArray. induction n as [|n IH]; intros i uvArray Hlen; simpl.
  - eexists; split; reflexivity.
  - unfold uvStep, getX, getZ, getComponent; cbn [array itemSize].
    destruct (Z.of_nat i <? 0)%Z eqn:E; [apply Z.ltb_lt in E; lia|].
    rewrite Nat2Z.id.
    destruct (lookup_lt_is_Some_2 pos (i * 3 + 0)%nat) as [xValue ->]; [lia|].
    destruct (lookup_lt_is_Some_2 pos (i * 3 + 2)%nat) as [zValue ->]; [lia|].
    destruct (IH (i + 1)%nat
                (<[ (i * 2 + 1)%nat := zValue / roadLength * roadTextureRepeat ]>
                   (<[ (i * 2)%nat := (xValue / (roadWidth / 2) + 1) / 2 ]> uvArray)))
      as (uvArray' & -> & Hl); [lia|].
    eexists; split; [reflexivity|]. rewrite Hl, !length_insert. reflexivity.
Qed.

Lemma adjustedUVs_Some :
  exists uvArray,
    adjustedUVs sin tubeVertex getLength = Some uvArray
    /\ length uvArray = length tubeUVs.
Proof.
  unfold adjustedUVs. apply uvLoop_Some.
  rewrite count_tubeUVs, length_tubePositions. lia.
Qed.

Hypothesis query_total : forall x z, is_Some (getTerrainHeight terrainMesh x z).

(** The conform pass rewrites the points [i .. i+n-1] and no other. *)
Lemma conformLoop_Some (n i : nat) (points : list Vec3) :
  (i + n <= length points)%nat ->
  exists points',
    conformLoop terrainMesh n i points = Some points'
    /\ length points' = length points
    /\ forall k, points' !! k
                 = if decide (i <= k < i + n)%nat
                   then points !! k ≫= conformPoint terrainMesh
                   else points !! k.
Proof.
  revert i points. induction n as [|n IH]; intros i points Hlen; simpl.
  - eexists; split; [reflexivity|]. split; [reflexivity|].
    intros k. destruct (decide _) as [H|H]; [lia|reflexivity].
  - unfold conformStep.
    destruct (lookup_lt_is_Some_2 points i) as [p Hp]; [lia|]. rewrite Hp.
    destruct (query_total (vx p) (vz p)) as [h Hh]. rewrite Hh.
    destruct (IH (i + 1)%nat (<[ i := mkVec3 (vx p) (h + (1 # 10)) (vz p) ]> points))
      as (points' & -> & Hl & Hk); [rewrite length_insert; lia|].
    eexists; split; [reflexivity|].
    split; [rewrite Hl, length_insert; reflexivity|].
    intros k. rewrite Hk.
    destruct (decide (i + 1 <= k < i + 1 + n)%nat) as [H1|H1];
      destruct (decide (i <= k < i + S n)%nat) as [H2|H2]; try lia.
    + rewrite list_lookup_insert_ne by lia. reflexivity.
    + assert (k = i) by lia; subst k.
      rewrite list_lookup_insert_eq by lia. rewrite Hp.
      unfold conformPoint; cbn [mbind option_bind]. rewrite Hh. reflexivity.
    + rewrite list_lookup_insert_ne by lia. reflexivity.
Qed.

Lemma generateRoads_Some :
  exists uvArray points,
    generateRoads sin tubeVertex getLength terrainMesh
      = Some (finishRoads sin tubeVertex uvArray points)
    /\ length uvArray = length tubeUVs
    /\ length points = length (plannedPoints sin)
    /\ forall k, points !! k = plannedPoints sin !! k ≫= conformPoint terrainMesh.
Proof.
  destruct adjustedUVs_Some as (uvArray & Huv & Hl).
  destruct (conformLoop_Some (length (plannedPoints sin)) 0 (plannedPoints sin))
    as (points & Hc & Hlp & Hk); [lia|].
  exists uvArray, points. unfold generateRoads.
  rewrite Huv; cbn [mbind option_bind]. rewrite Hc; cbn [mbind option_bind].
  split; [reflexivity|]. split; [exact Hl|]. split; [exact Hlp|].
  intros k. rewrite Hk.
  destruct (decide _) as [H|H]; [reflexivity|].
  rewrite (lookup_ge_None_2 (plannedPoints sin) k) by lia. reflexivity.
Qed.

End RoadFacts.

Section RoadClaims.
Local Open Scope Q_scope.

Variable sin : Q -> Q.
Variable tubeVertex : list Vec3 -> nat -> nat -> Vec3.
Variable getLength : list Vec3 -> Q.
Variable terrainMesh : option Mesh.

(** C6: the conform pass gives every planned point the height
    [getTerrainHeight (x, z) + 0.1] and leaves its [x] and [z]; the
    rebuilt tube carries the uv attribute computed for the first tube,
    and both tubes have the same vertex and uv counts. *)
Theorem conform_pass_and_uv_reuse :
  (forall x z, is_Some (getTerrainHeight terrainMesh x z)) ->
  exists r,
    generateRoads sin tubeVertex getLength terrainMesh = Some r
    /\ length (pathPoints r) = length (plannedPoints sin)
    /\ (forall i p, plannedPoints sin !! i = Some p ->
          exists h,
            getTerrainHeight terrainMesh (vx p) (vz p) = Some h
            /\ pathPoints r !! i = Some (mkVec3 (vx p) (h + (1 # 10)) (vz p)))
    /\ 0 < 1 # 10
    /\ exists posOld uvOld posNew uvNew,
         firstGeometry r = mkGeometry (Some posOld) (Some uvOld)
         /\ geometry (roadMesh r) = Some (mkGeometry (Some posNew) (Some uvNew))
         /\ posNew = mkAttr (tubePositions tubeVertex (pathPoints r)) 3
         /\ uvNew = uvOld
         /\ count posNew = count posOld
         /\ count uvNew = count posNew.
Proof.
  intros Htotal.
  destruct (generateRoads_Some sin tubeVertex getLength terrainMesh Htotal)
    as (uvArray & points & Hg & Hluv & Hlp & Hk).
  eexists; split; [exact Hg|]. cbn [finishRoads pathPoints firstGeometry roadMesh].
  split; [exact Hlp|]. split.
  - intros i p Hp. destruct (Htotal (vx p) (vz p)) as [h Hh].
    exists h; split; [exact Hh|].
    rewrite Hk, Hp; cbn [mbind option_bind]. unfold conformPoint.
    rewrite Hh. reflexivity.
  - split; [reflexivity|].
    eexists; eexists; eexists; eexists.
    split; [reflexivity|]. split; [reflexivity|].
    split; [reflexivity|]. split; [reflexivity|].
    split.
    + rewrite !count_tubePositions. reflexivity.
    + rewrite count_tubePositions. unfold count; cbn [array itemSize].
      rewrite Hluv. apply count_tubeUVs.
Qed.


End RoadClaims.

Lemma query_total_built (noiseFn : Q -> Q -> Q -> Q) (x z : Q) :
  is_Some (getTerrainHeight (Some (createTerrain noiseFn)) x z).
Proof. rewrite getTerrainHeight_built, interpolate_built. eexists; reflexivity. Qed.

Lemma conform_pass_and_uv_reuse_witness :
  exists r,
    generateRoads (fun _ => 0%Q) (fun _ _ _ => mkVec3 0 0 0) (fun _ => 800%Q)
      (Some (createTerrain rampNoise)) = Some r
    /\ length (pathPoints r) = length (plannedPoints (fun _ => 0%Q))
    /\ (forall i p, plannedPoints (fun _ => 0%Q) !! i = Some p ->
          exists h,
            getTerrainHeight (Some (createTerrain rampNoise)) (vx p) (vz p) = Some h
            /\ pathPoints r !! i = Some (mkVec3 (vx p) (h + (1 # 10)) (vz p)))
    /\ (0 < 1 # 10)%Q
    /\ exists posOld uvOld posNew uvNew,
         firstGeometry r = mkGeometry (Some posOld) (Some uvOld)
         /\ geometry (roadMesh r) = Some (mkGeometry (Some posNew) (Some uvNew))
         /\ posNew = mkAttr (tubePositions (fun _ _ _ => mkVec3 0 0 0) (pathPoints r)) 3
         /\ uvNew = uvOld
         /\ count posNew = count posOld
         /\ count uvNew = count posNew.
Proof.
  apply (conform_pass_and_uv_reuse (fun _ => 0%Q) (fun _ _ _ => mkVec3 0 0 0)
           (fun _ => 800%Q) (Some (createTerrain rampNoise))).
  apply query_total_built.
Defined.


(** ** Scatter placer *)

Section ScatterFacts.
Local Open Scope Q_scope.

Variable random : nat -> Q.
Variable terrainMesh : option Mesh.

Lemma lt_spec (a b : Q) : JS.lt a b = true <-> a < b.
Proof.
  unfold JS.lt. rewrite negb_true_iff. split.
  - intros H. apply Qnot_le_lt. intros L. apply Qle_bool_iff in L. congruence.
  - intros H. destruct (Qle_bool b a) eqn:E; [|reflexivity].
    apply Qle_bool_iff in E. lra.
Qed.

Lemma inRoadArea_false (x z : Q) :
  inRoadArea x z = false -> ~ (Qabs x < 18 /\ Qabs z < 400).
Proof.
  unfold inRoadArea, JS.abs. intros H [Hx Hz].
  assert (E1 : roadWidth * (15 # 10) == 18) by reflexivity.
  assert (E2 : terrainDepth * (5 # 10) == 400) by reflexivity.
  rewrite <- E1 in Hx. rewrite <- E2 in Hz.
  apply lt_spec in Hx, Hz. rewrite Hx, Hz in H. discriminate H.
Qed.

(** A position that is not accepted at once costs one round. *)
Lemma samplePosition_unfold (fuel k : nat) :
  samplePosition random (S fuel) k
  = if inRoadArea ((random k - (5 # 10)) * terrainWidth * (9 # 10))
                  ((random (k + 1) - (5 # 10)) * terrainDepth * (9 # 10))
    then samplePosition random fuel (k + 2)
    else Some ((random k - (5 # 10)) * terrainWidth * (9 # 10),
               (random (k + 1) - (5 # 10)) * terrainDepth * (9 # 10),
               (k + 2)%nat).
Proof. reflexivity. Qed.

(** Enough rounds give a position: if the pair drawn in round [m] is
    outside the road area, [m + 1] rounds suffice. *)
Lemma samplePosition_total (m fuel k : nat) :
  (m < fuel)%nat ->
  inRoadArea ((random (k + 2 * m) - (5 # 10)) * terrainWidth * (9 # 10))
             ((random (k + 2 * m + 1) - (5 # 10)) * terrainDepth * (9 # 10)) = false ->
  is_Some (samplePosition random fuel k).
Proof.
  revert fuel k. induction m as [|m IH]; intros fuel k Hm Hacc.
  - destruct fuel as [|fuel]; [lia|]. rewrite samplePosition_unfold.
    replace (k + 2 * 0)%nat with k in Hacc by lia. rewrite Hacc. eexists; reflexivity.
  - destruct fuel as [|fuel]; [lia|]. rewrite samplePosition_unfold.
    match goal with |- is_Some (if ?c then _ else _) => destruct c end;
      [|eexists; reflexivity].
    apply IH; [lia|].
    replace (k + 2 + 2 * m)%nat with (k + 2 * S m)%nat by lia. exact Hacc.
Qed.

Hypothesis random_range : forall n, 0 <= random n /\ random n < 1.

Lemma samplePosition_spec (fuel k : nat) (x z : Q) (k' : nat) :
  samplePosition random fuel k = Some (x, z, k') ->
  ~ (Qabs x < 18 /\ Qabs z < 400)
  /\ - ((45 # 100) * terrainWidth) <= x <= (45 # 100) * terrainWidth
  /\ - ((45 # 100) * terrainDepth) <= z <= (45 # 100) * terrainDepth.
Proof.
  revert k. induction fuel as [|fuel IH]; intros k H; [discriminate|].
  rewrite samplePosition_unfold in H.
  destruct (inRoadArea _ _) eqn:E; [exact (IH _ H)|].
  injection H as <- <- <-.
  split; [exact (inRoadArea_false _ _ E)|].
  destruct (random_range k) as [A0 A1].
  destruct (random_range (k + 1)) as [B0 B1].
  unfold terrainWidth, terrainDepth. repeat split; lra.
Qed.

Lemma placeTree_spec (fuel k : nat) (t : ScatterInstance) (k' : nat) :
  placeTree random terrainMesh fuel k = Some (t, k') -> wellPlaced terrainMesh t.
Proof.
  unfold placeTree. intros H.
  destruct (samplePosition random fuel k) as [[[x z] k1]|] eqn:Es; [|discriminate].
  destruct (getTerrainHeight terrainMesh x z) as [y|] eqn:Eh; [|discriminate].
  injection H as <- <-.
  destruct (samplePosition_spec _ _ _ _ _ Es) as (Hr & Hx & Hz).
  destruct (random_range k1) as [R0 R1].
  unfold wellPlaced; cbn [iposition iscale rotationY vx vy vz].
  split; [exact Hr|]. split; [exact Hx|]. split; [exact Hz|].
  split; [exact Eh|]. split; [reflexivity|].
  unfold JS.PI. repeat split; lra.
Qed.

Lemma treeLoop_spec (fuel n k : nat) (scene trees : list ScatterInstance) :
  Forall (wellPlaced terrainMesh) scene ->
  treeLoop random terrainMesh fuel n k scene = Some trees ->
  length trees = (length scene + n)%nat /\ Forall (wellPlaced terrainMesh) trees.
Proof.
  revert k scene. induction n as [|n IH]; intros k scene Hs H; simpl in H.
  - injection H as <-. split; [lia|exact Hs].
  - destruct (placeTree random terrainMesh fuel k) as [[t k']|] eqn:Ep; [|discriminate].
    destruct (IH k' (scene ++ [t])) as [Hl Hf]; [|exact H|].
    + apply Forall_app; split; [exact Hs|].
      constructor; [exact (placeTree_spec _ _ _ _ Ep)|constructor].
    + rewrite length_app in Hl; simpl in Hl. split; [lia|exact Hf].
Qed.

(** With a total height query and a random sequence that leaves the
    road area within [fuel] rounds from every position, all trees get
    placed. *)
Lemma treeLoop_total (fuel n k : nat) (scene : list ScatterInstance) :
  (forall x z, is_Some (getTerrainHeight terrainMesh x z)) ->
  (forall k, exists m, (m < fuel)%nat
     /\ inRoadArea ((random (k + 2 * m) - (5 # 10)) * terrainWidth * (9 # 10))
                   ((random (k + 2 * m + 1) - (5 # 10)) * terrainDepth * (9 # 10))
        = false) ->
  is_Some (treeLoop random terrainMesh fuel n k scene).
Proof.
  intros Hq Hfair. revert k scene. induction n as [|n IH]; intros k scene; simpl.
  - eexists; reflexivity.
  - unfold placeTree. destruct (Hfair k) as (m & Hm & Hacc).
    destruct (samplePosition_total m fuel k Hm Hacc) as [[[x z] k'] ->].
    destruct (Hq x z) as [y ->]. apply IH.
Qed.

End ScatterFacts.

Section ScatterClaims.
Local Open Scope Q_scope.

(** C7: every tree the placer returns lies outside the band
    [|x| < 18 and |z| < 400] and inside the sampling margins, stands at
    the queried terrain height with the uniform scale, and has its yaw
    in [[0, 2 * Math.PI)]; with the model loaded there are 500 of them. *)
Theorem scattered_trees_are_well_placed (random : nat -> Q) (terrainMesh : option Mesh)
    (treeModel : bool) (fuel : nat) (trees : list ScatterInstance) :
  (forall n, 0 <= random n /\ random n < 1) ->
  populateTrees random terrainMesh treeModel fuel = Some trees ->
  (treeModel = true -> length trees = 500%nat)
  /\ Forall (wellPlaced terrainMesh) trees.
Proof.
  intros Hr H. unfold populateTrees in H. destruct treeModel.
  - destruct (treeLoop_spec random terrainMesh Hr fuel numTrees 0 [] trees) as [Hl Hf];
      [constructor|exact H|].
    split; [intros _; exact Hl|exact Hf].
  - injection H as <-. split; [discriminate|constructor].
Qed.

Lemma cycleRandom_cases (n : nat) :
  ((n mod 4)%nat = 0%nat /\ cycleRandom n = 0 * (1 # 4))
  \/ ((n mod 4)%nat = 1%nat /\ cycleRandom n = 1 * (1 # 4))
  \/ ((n mod 4)%nat = 2%nat /\ cycleRandom n = 2 * (1 # 4))
  \/ ((n mod 4)%nat = 3%nat /\ cycleRandom n = 3 * (1 # 4)).
Proof.
  unfold cycleRandom. pose proof (Nat.mod_upper_bound n 4) as H.
  specialize (H ltac:(discriminate)).
  destruct (n mod 4)%nat as [|[|[|[|m]]]]; [tauto|tauto|tauto|tauto|lia].
Qed.

Lemma cycleRandom_range (n : nat) : 0 <= cycleRandom n /\ cycleRandom n < 1.
Proof.
  destruct (cycleRandom_cases n) as [ [_ ->] | [ [_ ->] | [ [_ ->] | [_ ->] ] ] ];
    split; vm_compute; (reflexivity || discriminate).
Qed.

Lemma cycleRandom_fair (k : nat) :
  exists m, (m < 2)%nat
    /\ inRoadArea ((cycleRandom (k + 2 * m) - (5 # 10)) * terrainWidth * (9 # 10))
                  ((cycleRandom (k + 2 * m + 1) - (5 # 10)) * terrainDepth * (9 # 10))
       = false.
Proof.
  assert (Hx : forall r z, r = 0 * (1 # 4) \/ r = 1 * (1 # 4) \/ r = 3 * (1 # 4) ->
            inRoadArea ((r - (5 # 10)) * terrainWidth * (9 # 10)) z = false).
  { intros r z [ -> | [ -> | -> ] ]; unfold inRoadArea;
      apply andb_false_intro1; vm_compute; reflexivity. }
  destruct (cycleRandom_cases k) as [[Hk E]|[[Hk E]|[[Hk E]|[Hk E]]]].
  - exists 0%nat. split; [lia|]. replace (k + 2 * 0)%nat with k by lia.
    apply Hx. tauto.
  - exists 0%nat. split; [lia|]. replace (k + 2 * 0)%nat with k by lia.
    apply Hx. tauto.
  - exists 1%nat. split; [lia|]. apply Hx.
    destruct (cycleRandom_cases (k + 2 * 1)) as [[Hk' E']|[[Hk' E']|[[Hk' E']|[Hk' E']]]];
      try tauto.
    exfalso. rewrite Nat.Div0.add_mod, Hk in Hk'. discriminate Hk'.
  - exists 0%nat. split; [lia|]. replace (k + 2 * 0)%nat with k by lia.
    apply Hx. tauto.
Qed.

Lemma scattered_trees_are_well_placed_witness :
  exists trees,
    populateTrees cycleRandom (Some (createTerrain rampNoise)) true 2 = Some trees
    /\ (true = true -> length trees = 500%nat)
    /\ Forall (wellPlaced (Some (createTerrain rampNoise))) trees.
Proof.
  destruct (treeLoop_total cycleRandom (Some (createTerrain rampNoise)) 2 numTrees 0 []
              (query_total_built rampNoise) cycleRandom_fair) as [trees H].
  exists trees. split; [exact H|].
  apply (scattered_trees_are_well_placed cycleRandom (Some (createTerrain rampNoise))
           true 2 trees); [exact cycleRandom_range|exact H].
Defined.

End ScatterClaims.

(** ** Noise texture *)

Section TextureFacts.
Local Open Scope Q_scope.

Lemma length_blackImage (width height : nat) :
  length (blackImage width height) = (width * height * 4)%nat.
Proof.
  unfold blackImage. rewrite (length_flat_map_const _ _ 4) by reflexivity.
  rewrite length_seq. reflexivity.
Qed.

Lemma lookup_blackImage (width height k r : nat) :
  (k < width * height)%nat -> (r < 4)%nat ->
  blackImage width height !! (k * 4 + r)%nat = [0; 0; 0; 255]%Z !! r.
Proof.
  intros Hk Hr. unfold blackImage.
  rewrite (lookup_flat_map_const _ _ 4) by (reflexivity || exact Hr).
  rewrite lookup_seq_lt by exact Hk. reflexivity.
Qed.

Lemma length_textureLoop (data : list Z) (width n i j : nat) (imageData : list Z) :
  length (textureLoop data width n i j imageData) = length imageData.
Proof.
  revert i j imageData. induction n as [|n IH]; intros i j imageData; simpl; [reflexivity|].
  rewrite IH. unfold textureStep. rewrite !length_insert. reflexivity.
Qed.

(** Slot [r] of pixel [k] after one iteration at pixel [i]. *)
Lemma lookup_textureStep (data : list Z) (width i k r : nat) (imageData : list Z) :
  (r < 4)%nat -> (k * 4 + r < length imageData)%nat ->
  textureStep data width i (i * 4) imageData !! (k * 4 + r)%nat
  = if decide (k = i)
    then Some (if decide (r = 3%nat) then 255%Z else grey data width i)
    else imageData !! (k * 4 + r)%nat.
Proof.
  intros Hr Hk. unfold textureStep.
  destruct (decide (k = i)) as [->|Hne].
  - destruct r as [|[|[|[|r]]]]; try lia; cbn [decide];
      repeat (rewrite list_lookup_insert_ne by lia);
      rewrite list_lookup_insert_eq by (rewrite ?length_insert; lia);
      reflexivity.
  - rewrite !list_lookup_insert_ne by lia. reflexivity.
Qed.

(** Slot [r] of pixel [k] after [n] iterations from pixel [i]. *)
Lemma lookup_textureLoop (data : list Z) (width n i k r : nat) (imageData : list Z) :
  (r < 4)%nat -> (k * 4 + r < length imageData)%nat ->
  textureLoop data width n i (i * 4) imageData !! (k * 4 + r)%nat
  = if decide (i <= k < i + n)%nat
    then Some (if decide (r = 3%nat) then 255%Z else grey data width k)
    else imageData !! (k * 4 + r)%nat.
Proof.
  revert i imageData. induction n as [|n IH]; intros i imageData Hr Hk; simpl.
  - destruct (decide _) as [H|H]; [lia|reflexivity].
  - replace (i * 4 + 4)%nat with ((i + 1) * 4)%nat by lia.
    rewrite IH by (unfold textureStep; rewrite ?length_insert; assumption).
    rewrite lookup_textureStep by assumption.
    destruct (decide (i + 1 <= k < i + 1 + n)%nat) as [H1|H1];
      destruct (decide (i <= k < i + S n)%nat) as [H2|H2];
      destruct (decide (k = i)) as [H3|H3]; try lia; try reflexivity.
    subst k. reflexivity.
Qed.

Lemma generateTexture_Some (data : list Z) (width height : nat) :
  (0 < width * height)%nat ->
  generateTexture data width height
  = Some (textureLoop data width (length data) 0 0 (blackImage width height)).
Proof.
  intros H. unfold generateTexture, getImageData.
  destruct (decide (width * height = 0)%nat); [lia|reflexivity].
Qed.

Lemma generateTexture_lookup (data : list Z) (width height : nat) :
  (0 < width * height)%nat ->
  exists image,
    generateTexture data width height = Some image
    /\ length image = (width * height * 4)%nat
    /\ forall k r, (k < width * height)%nat -> (r < 4)%nat ->
         image !! (k * 4 + r)%nat
         = Some (if decide (r = 3%nat) then 255%Z
                 else if decide (k < length data)%nat then grey data width k
                 else 0%Z).
Proof.
  intros Hpos. eexists. split; [apply generateTexture_Some; exact Hpos|]. split.
  - rewrite length_textureLoop. apply length_blackImage.
  - intros k r Hk Hr.
    pose proof (lookup_textureLoop data width (length data) 0 k r
                  (blackImage width height) Hr) as E.
    change (0 * 4)%nat with 0%nat in E. rewrite E by (rewrite length_blackImage; lia).
    destruct (decide (0 <= k < 0 + length data)%nat) as [H|H].
    + destruct (decide (k < length data)%nat); [reflexivity|lia].
    + rewrite lookup_blackImage by assumption.
      destruct (decide (k < length data)%nat); [lia|].
      destruct r as [|[|[|[|r]]]]; try lia; reflexivity.
Qed.

(** For a canvas with at least one pixel the result has four slots per
    pixel; every pixel is opaque, its three colour slots are equal, and
    a pixel beyond the end of [data] stays black, whatever the length of
    [data]. *)
Theorem generateTexture_pixels (data : list Z) (width height : nat) :
  (0 < width * height)%nat ->
  exists image,
    generateTexture data width height = Some image
    /\ length image = (width * height * 4)%nat
    /\ forall k r, (k < width * height)%nat -> (r < 4)%nat ->
         image !! (k * 4 + r)%nat
         = Some (if decide (r = 3%nat) then 255%Z
                 else if decide (k < length data)%nat then grey data width k
                 else 0%Z).
Proof. apply generateTexture_lookup. Qed.

Lemma generateTexture_pixels_witness :
  exists image,
    generateTexture [10; 20; 30]%Z 2 2 = Some image
    /\ length image = (2 * 2 * 4)%nat
    /\ forall k r, (k < 2 * 2)%nat -> (r < 4)%nat ->
         image !! (k * 4 + r)%nat
         = Some (if decide (r = 3%nat) then 255%Z
                 else if decide (k < length [10; 20; 30]%Z)%nat
                      then grey [10; 20; 30]%Z 2 k
                      else 0%Z).
Proof. apply (generateTexture_pixels [10; 20; 30]%Z 2 2). simpl. lia. Defined.

(** A pixel whose window of four samples reaches past the end of [data]
    is black: the whole last row, and the last pixel of the row before. *)
Theorem generateTexture_last_row_black (data : list Z) (width height k r : nat) :
  length data = (width * height)%nat ->
  (k < width * height)%nat -> (width * height <= k + width + 1)%nat -> (r < 3)%nat ->
  exists image,
    generateTexture data width height = Some image
    /\ image !! (k * 4 + r)%nat = Some 0%Z.
Proof.
  intros Hl Hk Hw Hr.
  destruct (generateTexture_lookup data width height) as (image & Hg & _ & H); [lia|].
  exists image. split; [exact Hg|].
  rewrite H by lia.
  destruct (decide (r = 3%nat)); [lia|].
  destruct (decide (k < length data)%nat); [|reflexivity].
  unfold grey. rewrite (lookup_ge_None_2 data (k + width + 1)) by lia.
  destruct (data !! k), (data !! (k + 1)%nat), (data !! (k + width)%nat); reflexivity.
Qed.

Lemma generateTexture_last_row_black_witness :
  exists image,
    generateTexture [10; 20; 30; 40; 50; 60]%Z 3 2 = Some image
    /\ image !! (2 * 4 + 1)%nat = Some 0%Z.
Proof.
  apply (generateTexture_last_row_black [10; 20; 30; 40; 50; 60]%Z 3 2 2 1);
    [reflexivity|simpl; lia|simpl; lia|lia].
Defined.

End TextureFacts.

Section TextureValues.
Local Open Scope Q_scope.

(** On [[0, 255]] the clamped conversion is within one half of its
    argument. *)
Lemma ToUint8Clamp_nearest (q : Q) :
  0 <= q -> q <= 255 ->
  q - (1 # 2) <= inject_Z (ToUint8Clamp q) /\ inject_Z (ToUint8Clamp q) <= q + (1 # 2).
Proof.
  intros H0 H1. unfold ToUint8Clamp.
  destruct (Qle_bool q 0) eqn:E0.
  { apply Qle_bool_iff in E0. change (inject_Z 0) with 0. split; lra. }
  destruct (Qle_bool 255 q) eqn:E1.
  { apply Qle_bool_iff in E1. change (inject_Z 255) with 255. split; lra. }
  pose proof (Qfloor_le q) as F0. pose proof (Qlt_floor q) as F1.
  rewrite inject_Z_plus in F1. change (inject_Z 1) with 1 in F1.
  destruct (Qcompare (inject_Z (Qfloor q) + (1 # 2)) q) eqn:C.
  - apply Qeq_alt in C. destruct (Z.even (Qfloor q)).
    + split; lra.
    + rewrite inject_Z_plus. change (inject_Z 1) with 1. split; lra.
  - apply Qlt_alt in C. rewrite inject_Z_plus. change (inject_Z 1) with 1. split; lra.
  - apply Qgt_alt in C. split; lra.
Qed.

(** Inside the array a colour slot holds the mean of the four samples
    of its window, rounded to an integer, and so lies between any bounds
    of the four samples. *)
Theorem generateTexture_mean (data : list Z) (width height k r : nat)
    (v0 v1 v2 v3 lo hi : Z) :
  (k < width * height)%nat -> (r < 3)%nat ->
  data !! k = Some v0 -> data !! (k + 1)%nat = Some v1 ->
  data !! (k + width)%nat = Some v2 -> data !! (k + width + 1)%nat = Some v3 ->
  (0 <= lo)%Z -> (hi <= 255)%Z ->
  (lo <= v0 <= hi)%Z -> (lo <= v1 <= hi)%Z -> (lo <= v2 <= hi)%Z -> (lo <= v3 <= hi)%Z ->
  exists (image : list Z) (g : Z),
    generateTexture data width height = Some image
    /\ image !! (k * 4 + r)%nat = Some g
    /\ (lo <= g <= hi)%Z
    /\ (4 * g - 2 <= v0 + v1 + v2 + v3 <= 4 * g + 2)%Z.
Proof.
  intros Hk Hr R0 R1 R2 R3 Hlo Hhi B0 B1 B2 B3.
  destruct (generateTexture_lookup data width height) as (image & Hg & _ & H); [lia|].
  exists image. eexists. split; [exact Hg|].
  rewrite H by lia.
  destruct (decide (r = 3%nat)); [lia|].
  destruct (decide (k < length data)%nat) as [_|Hn];
    [|apply lookup_lt_Some in R0; lia].
  split; [reflexivity|].
  unfold grey. rewrite R0, R1, R2, R3.
  set (sum := (v0 + v1 + v2 + v3)%Z).
  assert (S0 : (4 * lo <= sum <= 4 * hi)%Z) by (unfold sum; lia).
  assert (E : inject_Z sum / 4 == inject_Z sum * (1 # 4)) by (unfold Qdiv; reflexivity).
  assert (Q0 : inject_Z (4 * lo) <= inject_Z sum) by (rewrite <- Zle_Qle; lia).
  assert (Q1 : inject_Z sum <= inject_Z (4 * hi)) by (rewrite <- Zle_Qle; lia).
  assert (Q2 : 0 <= inject_Z lo) by (change 0 with (inject_Z 0); rewrite <- Zle_Qle; lia).
  assert (Q3 : inject_Z hi <= 255)
    by (change 255 with (inject_Z 255); rewrite <- Zle_Qle; lia).
  rewrite !inject_Z_mult in Q0, Q1. change (inject_Z 4) with 4 in Q0, Q1.
  destruct (ToUint8Clamp_nearest (inject_Z sum / 4)) as [N0 N1]; [lra|lra|].
  set (g := ToUint8Clamp (inject_Z sum / 4)) in *. clearbody g.
  rewrite E in N0, N1.
  assert (G0 : inject_Z (4 * g - 2) <= inject_Z sum).
  { unfold Z.sub. rewrite inject_Z_plus, inject_Z_mult.
    change (inject_Z 4) with 4. change (inject_Z (- (2))) with (-2). lra. }
  assert (G1 : inject_Z sum <= inject_Z (4 * g + 2)).
  { rewrite inject_Z_plus, inject_Z_mult.
    change (inject_Z 4) with 4. change (inject_Z 2) with 2. lra. }
  rewrite <- Zle_Qle in G0, G1. lia.
Qed.

Lemma generateTexture_mean_witness :
  exists (image : list Z) (g : Z),
    generateTexture [10; 20; 30; 40; 50; 61]%Z 3 2 = Some image
    /\ image !! (1 * 4 + 0)%nat = Some g
    /\ (20 <= g <= 61)%Z
    /\ (4 * g - 2 <= 20 + 30 + 50 + 61 <= 4 * g + 2)%Z.
Proof.
  apply (generateTexture_mean [10; 20; 30; 40; 50; 61]%Z 3 2 1 0 20 30 50 61 20 61);
    (reflexivity || (simpl; lia)).
Defined.

(** Writing a value that is already there, or past the end, changes
    nothing. *)
Lemma list_insert_same {A : Type} (l : list A) (i : nat) (x : A) :
  (forall y, l !! i = Some y -> y = x) -> <[ i := x ]> l = l.
Proof.
  intros H. destruct (l !! i) as [y|] eqn:E.
  - apply list_insert_id. rewrite E, (H y eq_refl). reflexivity.
  - apply list_insert_ge. apply lookup_ge_None. exact E.
Qed.

Lemma grey_zero_data (n width i : nat) : grey (replicate n 0%Z) width i = 0%Z.
Proof.
  unfold grey.
  destruct (replicate n 0%Z !! i) as [v0|] eqn:E0; [|reflexivity].
  destruct (replicate n 0%Z !! (i + 1)%nat) as [v1|] eqn:E1; [|reflexivity].
  destruct (replicate n 0%Z !! (i + width)%nat) as [v2|] eqn:E2; [|reflexivity].
  destruct (replicate n 0%Z !! (i + width + 1)%nat) as [v3|] eqn:E3; [|reflexivity].
  apply lookup_replicate_1 in E0, E1, E2, E3.
  destruct E0 as [-> _], E1 as [-> _], E2 as [-> _], E3 as [-> _]. reflexivity.
Qed.

Lemma blackImage_slot (width height k r : nat) (y : Z) :
  (r < 4)%nat -> blackImage width height !! (k * 4 + r)%nat = Some y ->
  Some y = [0; 0; 0; 255]%Z !! r.
Proof.
  intros Hr H. pose proof (lookup_lt_Some _ _ _ H) as Hl.
  rewrite length_blackImage in Hl.
  rewrite lookup_blackImage in H by lia. symmetry. exact H.
Qed.

(** From all-zero samples the loop writes back what the black fill
    left, so the image is plain black.  This is the texture of line 132,
    built from [data] as allocated on line 130, before [createTerrain]
    has written any sample; an empty canvas gives no image at all. *)
Theorem generateTexture_zero_data (n width height : nat) :
  ((0 < width * height)%nat ->
   generateTexture (replicate n 0%Z) width height = Some (blackImage width height))
  /\ ((width * height = 0)%nat ->
      forall data, generateTexture data width height = None).
Proof.
  split.
  - intros Hpos. rewrite generateTexture_Some by exact Hpos. f_equal.
    generalize (length (replicate n 0%Z)) as m.
    assert (H : forall m i,
              textureLoop (replicate n 0%Z) width m i (i * 4) (blackImage width height)
              = blackImage width height).
    { induction m as [|m IH]; intros i; simpl; [reflexivity|].
      replace (i * 4 + 4)%nat with ((i + 1) * 4)%nat by lia.
      assert (E : textureStep (replicate n 0%Z) width i (i * 4) (blackImage width height)
                  = blackImage width height).
      { unfold textureStep. rewrite grey_zero_data.
        rewrite (list_insert_same _ (i * 4 + 0)%nat 0%Z)
          by (intros y Hy; apply blackImage_slot in Hy; [|lia]; injection Hy as ->; reflexivity).
        rewrite (list_insert_same _ (i * 4 + 1)%nat 0%Z)
          by (intros y Hy; apply blackImage_slot in Hy; [|lia]; injection Hy as ->; reflexivity).
        rewrite (list_insert_same _ (i * 4 + 2)%nat 0%Z)
          by (intros y Hy; apply blackImage_slot in Hy; [|lia]; injection Hy as ->; reflexivity).
        apply list_insert_same.
        intros y Hy; apply blackImage_slot in Hy; [|lia]; injection Hy as ->; reflexivity. }
      rewrite E. apply IH. }
    intros m. exact (H m 0%nat).
  - intros H0 data. unfold generateTexture, getImageData.
    destruct (decide (width * height = 0)%nat); [reflexivity|lia].
Qed.

Lemma generateTexture_zero_data_witness :
  generateTexture (replicate 6 0%Z) 3 2 = Some (blackImage 3 2)
  /\ forall data, generateTexture data 0 2 = None.
Proof.
  destruct (generateTexture_zero_data 6 3 2) as [H _].
  destruct (generateTexture_zero_data 0 0 2) as [_ H'].
  split; [apply H; simpl; lia|apply H'; reflexivity].
Defined.

End TextureValues.

(** ** Key handlers *)

Section KeyFacts.

Lemma dom_onKeyDown (key : string) (keys : gmap string bool) :
  dom (onKeyDown key keys) = dom keys.
Proof.
  unfold onKeyDown. destruct (keys !! key) as [b|] eqn:E; [|reflexivity].
  apply dom_insert_lookup_L. rewrite E. eexists; reflexivity.
Qed.

Lemma dom_onKeyUp (key : string) (keys : gmap string bool) :
  dom (onKeyUp key keys) = dom keys.
Proof.
  unfold onKeyUp. destruct (keys !! key) as [b|] eqn:E; [|reflexivity].
  apply dom_insert_lookup_L. rewrite E. eexists; reflexivity.
Qed.

(** Whatever keys are pressed and released, [keys] keeps exactly its
    four properties, and an event for any other key changes nothing. *)
Theorem key_events_keep_the_four_keys (events : list KeyEvent) :
  dom (foldl handleKeyEvent initialKeys events)
  = ({[ "ArrowUp"; "ArrowDown"; "ArrowLeft"; "ArrowRight" ]} : gset string)
  /\ forall (keys : gmap string bool) (key : string),
       keys !! key = None ->
       onKeyDown key keys = keys /\ onKeyUp key keys = keys.
Proof.
  split.
  - assert (H : forall keys, dom (foldl handleKeyEvent keys events) = dom keys).
    { induction events as [|e events IH]; intros keys; simpl; [reflexivity|].
      rewrite IH. destruct e; [apply dom_onKeyDown|apply dom_onKeyUp]. }
    rewrite H. unfold initialKeys. rewrite !dom_insert_L, dom_empty_L. set_solver.
  - intros keys key E. unfold onKeyDown, onKeyUp. rewrite E. split; reflexivity.
Qed.

(** A key the object owns reads as pressed after its key-down, whatever
    it was before, and as released after its key-up; no other key is
    affected, and a repeated key-down changes nothing more. *)
Theorem key_down_then_up (keys : gmap string bool) (key : string) :
  is_Some (keys !! key) ->
  pressed (onKeyDown key keys) key = true
  /\ pressed (onKeyUp key (onKeyDown key keys)) key = false
  /\ onKeyDown key (onKeyDown key keys) = onKeyDown key keys
  /\ onKeyUp key (onKeyDown key keys) = onKeyUp key keys
  /\ forall other, other <> key ->
       pressed (onKeyDown key keys) other = pressed keys other
       /\ pressed (onKeyUp key keys) other = pressed keys other.
Proof.
  intros [b E]. unfold pressed, onKeyDown, onKeyUp. rewrite E.
  rewrite ?lookup_insert_eq. cbn [default].
  rewrite ?insert_insert_eq, ?lookup_insert_eq. cbn [default].
  split; [reflexivity|]. split; [reflexivity|].
  split; [reflexivity|]. split; [reflexivity|].
  intros other Hne. rewrite !lookup_insert_ne by congruence. split; reflexivity.
Qed.

Lemma key_down_then_up_witness :
  pressed (onKeyDown "ArrowLeft" initialKeys) "ArrowLeft" = true
  /\ pressed (onKeyUp "ArrowLeft" (onKeyDown "ArrowLeft" initialKeys)) "ArrowLeft" = false
  /\ onKeyDown "ArrowLeft" (onKeyDown "ArrowLeft" initialKeys)
     = onKeyDown "ArrowLeft" initialKeys
  /\ onKeyUp "ArrowLeft" (onKeyDown "ArrowLeft" initialKeys)
     = onKeyUp "ArrowLeft" initialKeys
  /\ forall other, other <> "ArrowLeft" ->
       pressed (onKeyDown "ArrowLeft" initialKeys) other = pressed initialKeys other
       /\ pressed (onKeyUp "ArrowLeft" initialKeys) other = pressed initialKeys other.
Proof.
  apply (key_down_then_up initialKeys "ArrowLeft"). eexists. reflexivity.
Defined.

End KeyFacts.

(** ** The query inside the terrain *)

Section InsideTerrain.
Local Open Scope Q_scope.

Variable noiseFn : Q -> Q -> Q -> Q.
Hypothesis noise_range : forall x y z, - (1) <= noiseFn x y z <= 1.

(** On and beyond the near edges the query stays within the height
    scale. *)
Lemma height_within_scale_aux (x z : Q) :
  - (terrainWidth / 2) <= x -> - (terrainDepth / 2) <= z ->
  exists h,
    getTerrainHeight (Some (createTerrain noiseFn)) x z = Some h
    /\ 0 <= h <= heightScale.
Proof.
  intros Hx Hz. rewrite getTerrainHeight_built, interpolate_built.
  eexists; split; [reflexivity|].
  destruct (fracU_range x Hx) as [Hu0 Hu1].
  destruct (fracV_range z Hz) as [Hv0 Hv1].
  apply bilinear_between; try (split; lra);
    apply (vertexHeight_range noiseFn noise_range).
Qed.

End InsideTerrain.

Section WithinScale.
Local Open Scope Q_scope.

Variable noiseFn : Q -> Q -> Q -> Q.


End WithinScale.


(** ** The game loop *)

Section GameLoopFacts.
Local Open Scope Q_scope.

Lemma lt_false (a b : Q) : JS.lt a b = false <-> b <= a.
Proof.
  unfold JS.lt. rewrite negb_false_iff. apply Qle_bool_iff.
Qed.

Lemma updateSpeed_bounds (keys : gmap string bool) (s delta : Q) :
  0 <= delta -> - (1 # 4) <= s <= 1 # 2 ->
  - (1 # 4) <= updateSpeed keys s delta <= 1 # 2.
Proof.
  intros Hd Hs. unfold updateSpeed, maxSpeed, acceleration, deceleration.
  destruct (pressed keys "ArrowUp").
  { destruct (Q.min_spec (5 # 10) (s + (2 # 100) * delta)) as [[H E]|[H E]];
      rewrite E; lra. }
  destruct (pressed keys "ArrowDown").
  { destruct (Q.max_spec (- (5 # 10) * (5 # 10)) (s - (2 # 100) * delta)) as [[H E]|[H E]];
      rewrite E; lra. }
  destruct (JS.lt 0 s) eqn:L1.
  - destruct (Q.max_spec 0 (s - (1 # 100) * delta)) as [[H E]|[H E]].
    + destruct (JS.lt (Qmax 0 (s - (1 # 100) * delta)) 0) eqn:L2.
      * apply lt_spec in L2. lra.
      * rewrite E. lra.
    + destruct (JS.lt (Qmax 0 (s - (1 # 100) * delta)) 0) eqn:L2.
      * apply lt_spec in L2. lra.
      * rewrite E. lra.
  - apply lt_false in L1. destruct (JS.lt s 0) eqn:L2; [|lra].
    destruct (Q.min_spec 0 (s + (1 # 100) * delta)) as [[H E]|[H E]]; rewrite E; lra.
Qed.

Lemma updateSpeed_coasting (keys : gmap string bool) (s delta : Q) :
  pressed keys "ArrowUp" = false -> pressed keys "ArrowDown" = false ->
  0 <= delta ->
  (0 <= s -> 0 <= updateSpeed keys s delta <= s)
  /\ (s <= 0 -> s <= updateSpeed keys s delta <= 0)
  /\ (Qabs s <= deceleration * delta -> updateSpeed keys s delta == 0).
Proof.
  intros Hu Hdn Hd. unfold updateSpeed, deceleration. rewrite Hu, Hdn.
  destruct (JS.lt 0 s) eqn:L1.
  - apply lt_spec in L1.
    destruct (Q.max_spec 0 (s - (1 # 100) * delta)) as [[H E]|[H E]];
      (destruct (JS.lt (Qmax 0 (s - (1 # 100) * delta)) 0) eqn:L2;
       [apply lt_spec in L2; lra|]);
      rewrite E; (split; [intros; lra|]); (split; [intros; lra|]);
      intros Ha; apply Qabs_Qle_condition in Ha; lra.
  - apply lt_false in L1. destruct (JS.lt s 0) eqn:L2.
    + apply lt_spec in L2.
      destruct (Q.min_spec 0 (s + (1 # 100) * delta)) as [[H E]|[H E]];
        rewrite E; (split; [intros; lra|]); (split; [intros; lra|]);
        intros Ha; apply Qabs_Qle_condition in Ha; lra.
    + apply lt_false in L2.
      split; [intros; lra|]. split; [intros; lra|]. intros _. lra.
Qed.

Variable forward : Q -> Vec3.
Variable terrainMesh : option Mesh.

(** The speed clamp: from a speed between minus a quarter (half of
    [maxSpeed], in reverse) and [maxSpeed], a frame that took no negative
    time leaves the speed in that range, whatever keys are held. *)
Theorem animate_keeps_speed_in_range (delta : Q) (g g' : Game) :
  0 <= delta ->
  - (maxSpeed * (5 # 10)) <= vehicleSpeed g <= maxSpeed ->
  animate forward terrainMesh delta g = Some g' ->
  - (maxSpeed * (5 # 10)) <= vehicleSpeed g' <= maxSpeed.
Proof.
  intros Hd Hs H. unfold animate in H.
  destruct (getTerrainHeight terrainMesh _ _) as [h|]; [|discriminate].
  cbn [mbind option_bind] in H. injection H as <-. cbn [vehicleSpeed].
  assert (E1 : maxSpeed * (5 # 10) == 1 # 4) by reflexivity.
  assert (E2 : maxSpeed == 1 # 2) by reflexivity.
  rewrite E1, E2 in *. apply updateSpeed_bounds; assumption.
Qed.

(** Coasting: with neither ArrowUp nor ArrowDown held the speed moves
    toward zero without crossing it, reaches zero once it is within
    [deceleration * delta] of it, and a vehicle at rest stays where it
    is. *)
Theorem animate_coasts_to_rest (delta : Q) (g g' : Game) :
  pressed (keys g) "ArrowUp" = false -> pressed (keys g) "ArrowDown" = false ->
  0 <= delta ->
  animate forward terrainMesh delta g = Some g' ->
  (0 <= vehicleSpeed g -> 0 <= vehicleSpeed g' <= vehicleSpeed g)
  /\ (vehicleSpeed g <= 0 -> vehicleSpeed g <= vehicleSpeed g' <= 0)
  /\ (Qabs (vehicleSpeed g) <= deceleration * delta -> vehicleSpeed g' == 0)
  /\ (vehicleSpeed g == 0 ->
      vx (vehiclePosition (vehicle g')) == vx (vehiclePosition (vehicle g))
      /\ vz (vehiclePosition (vehicle g')) == vz (vehiclePosition (vehicle g))
      /\ vehicleYaw (vehicle g') = vehicleYaw (vehicle g)).
Proof.
  intros Hu Hdn Hd H. unfold animate in H.
  destruct (getTerrainHeight terrainMesh _ _) as [h|]; [|discriminate].
  cbn [mbind option_bind] in H. injection H as <-.
  cbn [vehicleSpeed vehicle vehiclePosition vehicleYaw vx vz].
  destruct (updateSpeed_coasting (keys g) (vehicleSpeed g) delta Hu Hdn Hd)
    as (C1 & C2 & C3).
  split; [exact C1|]. split; [exact C2|]. split; [exact C3|].
  intros E0.
  assert (Z0 : updateSpeed (keys g) (vehicleSpeed g) delta == 0).
  { apply C3. rewrite E0. change (Qabs 0) with 0. unfold deceleration. lra. }
  split.
  { generalize (forward (steer (keys g) (updateSpeed (keys g) (vehicleSpeed g) delta)
                               delta (vehicleYaw (vehicle g)))).
    intros f. rewrite Z0. ring. }
  split.
  { generalize (forward (steer (keys g) (updateSpeed (keys g) (vehicleSpeed g) delta)
                               delta (vehicleYaw (vehicle g)))).
    intros f. rewrite Z0. ring. }
  unfold steer.
  destruct (JS.lt (1 # 100) (JS.abs (updateSpeed (keys g) (vehicleSpeed g) delta))) eqn:L;
    [|reflexivity].
  apply lt_spec in L. unfold JS.abs in L. rewrite Z0 in L. discriminate L.
Qed.


End GameLoopFacts.

Section GroundFollowing.
Local Open Scope Q_scope.

Variable forward : Q -> Vec3.

Lemma animate_total (terrainMesh : option Mesh) (delta : Q) (g : Game) :
  (forall x z, is_Some (getTerrainHeight terrainMesh x z)) ->
  is_Some (animate forward terrainMesh delta g).
Proof.
  intros Hq. unfold animate.
  match goal with
  | |- context [getTerrainHeight terrainMesh ?x ?z] => destruct (Hq x z) as [h ->]
  end.
  eexists; reflexivity.
Qed.

(** Ground following: on the built terrain every frame ends with the
    vehicle at the terrain height of its new position plus 1.5, whatever
    its height was before; the keys are left as they were; and where the
    new position is on or beyond the near edges the vehicle is not below
    1.5. *)
Theorem animate_puts_vehicle_on_ground (noiseFn : Q -> Q -> Q -> Q) (delta : Q) (g : Game) :
  (forall a b c, - (1) <= noiseFn a b c <= 1) ->
  exists g' h,
    animate forward (Some (createTerrain noiseFn)) delta g = Some g'
    /\ getTerrainHeight (Some (createTerrain noiseFn))
         (vx (vehiclePosition (vehicle g'))) (vz (vehiclePosition (vehicle g'))) = Some h
    /\ vy (vehiclePosition (vehicle g')) = h + (15 # 10)
    /\ keys g' = keys g
    /\ (- (terrainWidth / 2) <= vx (vehiclePosition (vehicle g')) ->
        - (terrainDepth / 2) <= vz (vehiclePosition (vehicle g')) ->
        15 # 10 <= vy (vehiclePosition (vehicle g'))).
Proof.
  intros Hn. unfold animate.
  match goal with
  | |- context [getTerrainHeight ?t ?x ?z] =>
      destruct (query_total_built noiseFn x z) as [h Hh]; rewrite Hh
  end.
  cbn [mbind option_bind]. eexists; exists h. split; [reflexivity|].
  cbn [vehicle vehiclePosition vx vy vz keys].
  split; [exact Hh|]. split; [reflexivity|]. split; [reflexivity|].
  intros Hx Hz.
  destruct (height_within_scale_aux noiseFn Hn _ _ Hx Hz) as (h' & Hh' & B).
  rewrite Hh in Hh'. injection Hh' as <-. lra.
Qed.

End GroundFollowing.

Section SessionFacts.
Local Open Scope Q_scope.

Variable forward : Q -> Vec3.
Variable terrainMesh : option Mesh.
Hypothesis query_total : forall x z, is_Some (getTerrainHeight terrainMesh x z).

Lemma play_invariant (ticks : list Tick) (g : Game) :
  Forall (fun t => 0 <= frameTime t) ticks ->
  - (1 # 4) <= vehicleSpeed g <= 1 # 2 ->
  exists g',
    play forward terrainMesh g ticks = Some g'
    /\ - (1 # 4) <= vehicleSpeed g' <= 1 # 2
    /\ dom (keys g') = dom (keys g).
Proof.
  revert g. induction ticks as [|t ticks IH]; intros g Ht Hs.
  - exists g. split; [reflexivity|]. split; [exact Hs|reflexivity].
  - inversion Ht as [|? ? Ht0 Ht']; subst.
    cbn [play]. destruct t as [delta|e]; cbn [tick frameTime] in *.
    + destruct (animate_total forward terrainMesh delta g query_total) as [g1 Hg1].
      rewrite Hg1; cbn [mbind option_bind].
      assert (Hs1 : - (1 # 4) <= vehicleSpeed g1 <= 1 # 2
                    /\ keys g1 = keys g).
      { unfold animate in Hg1.
        match type of Hg1 with
        | context [getTerrainHeight terrainMesh ?x ?z] =>
            destruct (getTerrainHeight terrainMesh x z) as [h|]; [|discriminate]
        end.
        cbn [mbind option_bind] in Hg1. injection Hg1 as <-.
        cbn [vehicleSpeed keys]. split; [|reflexivity].
        apply updateSpeed_bounds; assumption. }
      destruct Hs1 as [Hs1 Hk1].
      destruct (IH g1 Ht' Hs1) as (g' & Hp & Hs' & Hd).
      exists g'. split; [exact Hp|]. split; [exact Hs'|]. rewrite Hd, Hk1. reflexivity.
    + cbn [mbind option_bind].
      destruct (IH {| keys := handleKeyEvent (keys g) e;
                      vehicleSpeed := vehicleSpeed g;
                      vehicle := vehicle g |} Ht' Hs) as (g' & Hp & Hs' & Hd).
      exists g'. split; [exact Hp|]. split; [exact Hs'|].
      rewrite Hd. cbn [keys]. destruct e; [apply dom_onKeyDown|apply dom_onKeyUp].
Qed.

End SessionFacts.

Section SessionClaims.
Local Open Scope Q_scope.

Variable forward : Q -> Vec3.

(** A whole session: from the start state, after any sequence of key
    events and frames on the built terrain in which no frame took
    negative time, the speed lies between [-maxSpeed / 2] and
    [maxSpeed] and [keys] still has exactly its four properties. *)
Theorem session_keeps_speed_and_keys (noiseFn : Q -> Q -> Q -> Q) (ticks : list Tick) :
  Forall (fun t => 0 <= frameTime t) ticks ->
  exists g,
    play forward (Some (createTerrain noiseFn)) initialGame ticks = Some g
    /\ - (maxSpeed / 2) <= vehicleSpeed g <= maxSpeed
    /\ dom (keys g) = fourKeys.
Proof.
  intros Ht.
  destruct (play_invariant forward (Some (createTerrain noiseFn))
              (query_total_built noiseFn) ticks initialGame Ht) as (g & Hp & Hs & Hd).
  { cbn [initialGame vehicleSpeed]. lra. }
  exists g. split; [exact Hp|]. split.
  - assert (E1 : maxSpeed / 2 == 1 # 4) by (vm_compute; reflexivity).
    assert (E2 : maxSpeed == 1 # 2) by (vm_compute; reflexivity).
    rewrite E1, E2. exact Hs.
  - rewrite Hd. cbn [initialGame keys]. unfold initialKeys, fourKeys.
    rewrite !dom_insert_L, dom_empty_L. set_solver.
Qed.

End SessionClaims.

Lemma session_keeps_speed_and_keys_witness :
  exists g,
    play (fun _ => mkVec3 0 0 (-1)) (Some (createTerrain rampNoise)) initialGame
      [Key (KeyDown "ArrowUp"); Frame (1 # 60); Key (KeyUp "ArrowUp"); Frame (1 # 60)]
      = Some g
    /\ (- (maxSpeed / 2) <= vehicleSpeed g <= maxSpeed)%Q
    /\ dom (keys g) = fourKeys.
Proof.
  apply (session_keeps_speed_and_keys (fun _ => mkVec3 0 0 (-1)) rampNoise).
  repeat constructor; cbn [frameTime]; lra.
Defined.

(** A frame of one sixtieth of a second, heading along -z, with ArrowUp
    and ArrowLeft held. *)
Lemma animate_puts_vehicle_on_ground_witness :
  exists g' h,
    animate (fun _ => mkVec3 0 0 (-1)) (Some (createTerrain rampNoise)) (1 # 60)
      (mkGame (onKeyDown "ArrowUp" initialKeys) 0 createVehicle) = Some g'
    /\ getTerrainHeight (Some (createTerrain rampNoise))
         (vx (vehiclePosition (vehicle g'))) (vz (vehiclePosition (vehicle g'))) = Some h
    /\ vy (vehiclePosition (vehicle g')) = (h + (15 # 10))%Q
    /\ keys g' = keys (mkGame (onKeyDown "ArrowUp" initialKeys) 0 createVehicle)
    /\ ((- (terrainWidth / 2) <= vx (vehiclePosition (vehicle g')))%Q ->
        (- (terrainDepth / 2) <= vz (vehiclePosition (vehicle g')))%Q ->
        (15 # 10 <= vy (vehiclePosition (vehicle g')))%Q).
Proof.
  apply (animate_puts_vehicle_on_ground (fun _ => mkVec3 0 0 (-1)) rampNoise (1 # 60)
           (mkGame (onKeyDown "ArrowUp" initialKeys) 0 createVehicle) rampNoise_range).
Defined.

Lemma animate_keeps_speed_in_range_witness :
  exists g',
    animate (fun _ => mkVec3 0 0 (-1)) (Some (createTerrain rampNoise)) (1 # 60)
      (mkGame (onKeyDown "ArrowUp" initialKeys) (1 # 2) createVehicle) = Some g'
    /\ (- (maxSpeed * (5 # 10)) <= vehicleSpeed g' <= maxSpeed)%Q.
Proof.
  destruct (animate_total (fun _ => mkVec3 0 0 (-1)) (Some (createTerrain rampNoise)) (1 # 60)
              (mkGame (onKeyDown "ArrowUp" initialKeys) (1 # 2) createVehicle)
              (query_total_built rampNoise)) as [g' H].
  exists g'. split; [exact H|].
  apply (animate_keeps_speed_in_range (fun _ => mkVec3 0 0 (-1))
           (Some (createTerrain rampNoise)) (1 # 60)
           (mkGame (onKeyDown "ArrowUp" initialKeys) (1 # 2) createVehicle) g');
    [vm_compute; discriminate|vm_compute; split; discriminate|exact H].
Defined.

Lemma animate_coasts_to_rest_witness :
  exists g',
    animate (fun _ => mkVec3 0 0 (-1)) (Some (createTerrain rampNoise)) (1 # 60)
      (mkGame initialKeys (1 # 4) createVehicle) = Some g'
    /\ ((0 <= 1 # 4)%Q -> (0 <= vehicleSpeed g' <= 1 # 4)%Q).
Proof.
  destruct (animate_total (fun _ => mkVec3 0 0 (-1)) (Some (createTerrain rampNoise)) (1 # 60)
              (mkGame initialKeys (1 # 4) createVehicle)
              (query_total_built rampNoise)) as [g' H].
  exists g'. split; [exact H|].
  apply (animate_coasts_to_rest (fun _ => mkVec3 0 0 (-1))
           (Some (createTerrain rampNoise)) (1 # 60)
           (mkGame initialKeys (1 # 4) createVehicle) g');
    [reflexivity|reflexivity|vm_compute; discriminate|exact H].
Defined.


(** ** More on the scatter placer *)

Section PlacerFacts.
Local Open Scope Q_scope.

Variable random : nat -> Q.
Variable terrainMesh : option Mesh.

Lemma treeLoop_Forall (P : ScatterInstance -> Prop) (fuel n k : nat)
    (scene trees : list ScatterInstance) :
  (forall k t k', placeTree random terrainMesh fuel k = Some (t, k') -> P t) ->
  Forall P scene ->
  treeLoop random terrainMesh fuel n k scene = Some trees ->
  Forall P trees.
Proof.
  intros HP. revert k scene. induction n as [|n IH]; intros k scene Hs H; simpl in H.
  - injection H as <-. exact Hs.
  - destruct (placeTree random terrainMesh fuel k) as [[t k']|] eqn:Ep; [|discriminate].
    apply (IH k' (scene ++ [t])); [|exact H].
    apply Forall_app; split; [exact Hs|].
    constructor; [exact (HP _ _ _ Ep)|constructor].
Qed.

(** A draw in [[0, 1)] always passes the test on z, so a pair is
    rejected exactly when [|x| < roadWidth * 1.5]. *)
Lemma inRoadArea_sampled (x rz : Q) :
  0 <= rz -> rz < 1 ->
  inRoadArea x ((rz - (5 # 10)) * terrainDepth * (9 # 10))
  = JS.lt (JS.abs x) (roadWidth * (15 # 10)).
Proof.
  intros H0 H1. unfold inRoadArea.
  assert (Z : JS.lt (JS.abs ((rz - (5 # 10)) * terrainDepth * (9 # 10)))
                    (terrainDepth * (5 # 10)) = true).
  { apply lt_spec. unfold JS.abs. apply Qabs_Qlt_condition.
    unfold terrainDepth. split; lra. }
  rewrite Z, andb_true_r. reflexivity.
Qed.

Hypothesis random_range : forall n, 0 <= random n /\ random n < 1.

Lemma samplePosition_off_centre (fuel k : nat) (x z : Q) (k' : nat) :
  samplePosition random fuel k = Some (x, z, k') ->
  18 <= Qabs x /\ Qabs x <= 180 /\ Qabs z <= 360.
Proof.
  revert k. induction fuel as [|fuel IH]; intros k H; [discriminate|].
  rewrite samplePosition_unfold in H.
  destruct (random_range k) as [A0 A1].
  destruct (random_range (k + 1)) as [B0 B1].
  rewrite inRoadArea_sampled in H by assumption.
  destruct (JS.lt _ _) eqn:E; [exact (IH _ H)|].
  injection H as <- <- <-.
  apply lt_false in E. unfold JS.abs in E.
  assert (E18 : roadWidth * (15 # 10) == 18) by reflexivity.
  rewrite E18 in E. split; [exact E|].
  split; apply Qabs_Qle_condition; unfold terrainWidth, terrainDepth; split; lra.
Qed.

Lemma placeTree_off_centre (fuel k : nat) (t : ScatterInstance) (k' : nat) :
  placeTree random terrainMesh fuel k = Some (t, k') ->
  18 <= Qabs (vx (iposition t)) /\ Qabs (vx (iposition t)) <= 180
  /\ Qabs (vz (iposition t)) <= 360.
Proof.
  unfold placeTree. intros H.
  destruct (samplePosition random fuel k) as [[[x z] k1]|] eqn:Es; [|discriminate].
  destruct (getTerrainHeight terrainMesh x z) as [y|]; [|discriminate].
  injection H as <- <-. cbn [iposition vx vz].
  exact (samplePosition_off_centre _ _ _ _ _ Es).
Qed.

End PlacerFacts.

Section PlacerClaims.
Local Open Scope Q_scope.

(** Off the centre line: the test on z never rejects a sample, so every
    placed tree has [|x|] between 18 and 180 and [|z|] at most 360. *)
Theorem trees_keep_off_the_centre_line (random : nat -> Q) (terrainMesh : option Mesh)
    (treeModel : bool) (fuel : nat) (trees : list ScatterInstance) :
  (forall n, 0 <= random n /\ random n < 1) ->
  populateTrees random terrainMesh treeModel fuel = Some trees ->
  Forall (fun t => 18 <= Qabs (vx (iposition t)) /\ Qabs (vx (iposition t)) <= 180
                   /\ Qabs (vz (iposition t)) <= 360) trees.
Proof.
  intros Hr H. unfold populateTrees in H. destruct treeModel.
  - apply (treeLoop_Forall random terrainMesh _ fuel numTrees 0 [] trees);
      [|constructor|exact H].
    intros k t k' Hp. exact (placeTree_off_centre random terrainMesh Hr _ _ _ _ Hp).
  - injection H as <-. constructor.
Qed.

(** The loop that never ends: when every draw lies strictly between
    0.45 and 0.55 each sample falls in the road area, and no number of
    rounds yields a tree. *)
Theorem populateTrees_never_returns (random : nat -> Q) (terrainMesh : option Mesh)
    (fuel : nat) :
  (forall n, 45 # 100 < random n /\ random n < 55 # 100) ->
  populateTrees random terrainMesh true fuel = None.
Proof.
  intros Hr.
  assert (Hs : forall m k, samplePosition random m k = None).
  { induction m as [|m IH]; intros k; [reflexivity|].
    rewrite samplePosition_unfold.
    destruct (Hr k) as [A0 A1]. destruct (Hr (k + 1)%nat) as [B0 B1].
    rewrite inRoadArea_sampled by lra.
    assert (L : JS.lt (JS.abs ((random k - (5 # 10)) * terrainWidth * (9 # 10)))
                      (roadWidth * (15 # 10)) = true).
    { apply lt_spec. unfold JS.abs. apply Qabs_Qlt_condition.
      assert (E18 : roadWidth * (15 # 10) == 18) by reflexivity.
      rewrite E18. unfold terrainWidth. split; lra. }
    rewrite L. apply IH. }
  unfold populateTrees, numTrees. cbn [treeLoop]. unfold placeTree. rewrite Hs. reflexivity.
Qed.

End PlacerClaims.

Lemma trees_keep_off_the_centre_line_witness :
  exists trees,
    populateTrees cycleRandom (Some (createTerrain rampNoise)) true 2 = Some trees
    /\ Forall (fun t => (18 <= Qabs (vx (iposition t)))%Q
                        /\ (Qabs (vx (iposition t)) <= 180)%Q
                        /\ (Qabs (vz (iposition t)) <= 360)%Q) trees.
Proof.
  destruct (treeLoop_total cycleRandom (Some (createTerrain rampNoise)) 2 numTrees 0 []
              (query_total_built rampNoise) cycleRandom_fair) as [trees H].
  exists trees. split; [exact H|].
  apply (trees_keep_off_the_centre_line cycleRandom (Some (createTerrain rampNoise))
           true 2 trees cycleRandom_range H).
Defined.

Lemma populateTrees_never_returns_witness :
  populateTrees (fun _ => 1 # 2) (Some (createTerrain rampNoise)) true 1000 = None.
Proof.
  apply (populateTrees_never_returns (fun _ => 1 # 2) (Some (createTerrain rampNoise)) 1000).
  intros n. split; reflexivity.
Defined.

(** ** More on the heightfield *)

Section HeightfieldFacts.
Local Open Scope Q_scope.

Variable noiseFn : Q -> Q -> Q -> Q.

(** Whatever the noise function returns, also outside [[-1, 1]], the
    stored sample is a byte and the vertex height lies between 0 and
    [255 * heightScale / 128]. *)
Theorem vertex_heights_never_negative (index : Z) :
  (0 <= index < size)%Z ->
  exists (d : Z) (h : Q),
    data (builtTerrainState noiseFn) !! Z.to_nat index = Some d
    /\ getY (builtPosition noiseFn) index = Some h
    /\ (0 <= d <= 255)%Z
    /\ h == inject_Z d * (heightScale / 128)
    /\ 0 <= h <= 255 * heightScale / 128.
Proof.
  intros Hi.
  exists (sample noiseFn (Z.to_nat index)), (vertexHeight noiseFn (Z.to_nat index)).
  split; [apply built_data_lookup; lia|].
  split; [apply built_getY; exact Hi|].
  assert (R : (0 <= sample noiseFn (Z.to_nat index) < 256)%Z)
    by (unfold sample; apply ToUint8_range).
  split; [lia|]. split; [reflexivity|].
  unfold vertexHeight.
  assert (R0 : inject_Z 0 <= inject_Z (sample noiseFn (Z.to_nat index)))
    by (rewrite <- Zle_Qle; lia).
  assert (R1 : inject_Z (sample noiseFn (Z.to_nat index)) <= inject_Z 255)
    by (rewrite <- Zle_Qle; lia).
  change (inject_Z 0) with 0 in R0. change (inject_Z 255) with 255 in R1.
  assert (E1 : heightScale / 128 == 15 # 64) by (vm_compute; reflexivity).
  assert (E2 : 255 * heightScale / 128 == 3825 # 64) by (vm_compute; reflexivity).
  rewrite E1, E2. split; lra.
Qed.

End HeightfieldFacts.

(** A noise value of 3, outside the contract, wraps to height 0. *)
Lemma vertex_heights_never_negative_witness :
  exists (d : Z) (h : Q),
    data (builtTerrainState (fun _ _ _ => 3%Q)) !! Z.to_nat 5 = Some d
    /\ getY (builtPosition (fun _ _ _ => 3%Q)) 5 = Some h
    /\ (0 <= d <= 255)%Z
    /\ (h == inject_Z d * (heightScale / 128))%Q
    /\ (0 <= h <= 255 * heightScale / 128)%Q.
Proof.
  apply (vertex_heights_never_negative (fun _ _ _ => 3%Q) 5).
  vm_compute. split; (discriminate || reflexivity).
Defined.

(** ** The road and the trees on the built terrain *)

Section RoadOnTerrain.
Local Open Scope Q_scope.

Lemma lookup_map {A B : Type} (f : A -> B) (l : list A) (k : nat) :
  map f l !! k = f <$> (l !! k).
Proof.
  revert k. induction l as [|a l IH]; intros [|k]; simpl; try reflexivity. apply IH.
Qed.

Variable sin : Q -> Q.
Variable tubeVertex : list Vec3 -> nat -> nat -> Vec3.
Variable getLength : list Vec3 -> Q.
Variable random : nat -> Q.
Variable terrainMesh : option Mesh.

Hypothesis sin_range : forall t, - (1) <= sin t <= 1.
Hypothesis random_range : forall n, 0 <= random n /\ random n < 1.
Hypothesis query_range :
  forall x z h, - (terrainWidth / 2) <= x -> - (terrainDepth / 2) <= z ->
    getTerrainHeight terrainMesh x z = Some h -> 0 <= h <= heightScale.

Lemma plannedPoint_facts (i : nat) (p : Vec3) :
  plannedPoints sin !! i = Some p ->
  vz p == - (terrainDepth / 2) + inject_Z (Z.of_nat i) * 8
  /\ - (terrainDepth / 2) <= vz p <= terrainDepth / 2
  /\ - (5) <= vx p <= 5
  /\ vy p = 0.
Proof.
  unfold plannedPoints. rewrite lookup_map. intros H.
  destruct (seq 0 (S roadSegments) !! i) as [j|] eqn:E; [|discriminate].
  apply lookup_seq in E. destruct E as [-> Hi]. injection H as <-.
  unfold plannedPoint; cbn [vx vy vz]. cbn [Nat.add].
  assert (B0 : inject_Z 0 <= inject_Z (Z.of_nat i)) by (rewrite <- Zle_Qle; lia).
  assert (B1 : inject_Z (Z.of_nat i) <= inject_Z 100)
    by (rewrite <- Zle_Qle; unfold roadSegments in Hi; lia).
  change (inject_Z 0) with 0 in B0. change (inject_Z 100) with 100 in B1.
  set (zz := roadStartZ + inject_Z (Z.of_nat i) * roadSegmentLength).
  assert (Ez : zz == - (400) + inject_Z (Z.of_nat i) * 8)
    by (unfold zz, roadStartZ, roadSegmentLength, terrainDepth, roadSegments; field).
  assert (Ed : terrainDepth / 2 == 400) by reflexivity.
  pose proof (sin_range (zz * (5 # 100))) as [S0 S1].
  clearbody zz.
  split; [lra|]. split; [split; lra|]. split; [split; lra|reflexivity].
Qed.

Lemma conformed_point_facts (i : nat) (p : Vec3) :
  plannedPoints sin !! i ≫= conformPoint terrainMesh = Some p ->
  vz p == - (terrainDepth / 2) + inject_Z (Z.of_nat i) * 8
  /\ - (terrainDepth / 2) <= vz p <= terrainDepth / 2
  /\ - (5) <= vx p <= 5
  /\ 1 # 10 <= vy p <= heightScale + (1 # 10).
Proof.
  intros Hp. apply bind_Some in Hp. destruct Hp as (p0 & E0 & Hp).
  destruct (plannedPoint_facts i p0 E0) as (Fz & Bz & Bx & _).
  unfold conformPoint in Hp. apply bind_Some in Hp. destruct Hp as (h & Hh & Hp).
  injection Hp as <-. cbn [vx vy vz].
  assert (Ew : terrainWidth / 2 == 200) by reflexivity.
  assert (Bh : 0 <= h <= heightScale)
    by (apply (query_range (vx p0) (vz p0)); [rewrite Ew; lra|lra|exact Hh]).
  split; [exact Fz|]. split; [exact Bz|]. split; [exact Bx|]. lra.
Qed.

Hypothesis query_total : forall x z, is_Some (getTerrainHeight terrainMesh x z).

Lemma road_points_gen (r : RoadResult) :
  generateRoads sin tubeVertex getLength terrainMesh = Some r ->
  length (pathPoints r) = 101%nat
  /\ forall i p, pathPoints r !! i = Some p ->
       vz p == - (terrainDepth / 2) + inject_Z (Z.of_nat i) * 8
       /\ - (terrainDepth / 2) <= vz p <= terrainDepth / 2
       /\ - (5) <= vx p <= 5
       /\ 1 # 10 <= vy p <= heightScale + (1 # 10).
Proof.
  intros Hg.
  destruct (generateRoads_Some sin tubeVertex getLength terrainMesh query_total)
    as (uvArray & points & Hg' & _ & Hl & Hk).
  rewrite Hg in Hg'. injection Hg' as ->. cbn [finishRoads pathPoints]. split.
  - rewrite Hl. apply length_plannedPoints.
  - intros i p Hp. rewrite Hk in Hp. exact (conformed_point_facts i p Hp).
Qed.

Lemma placed_objects_gen (fuel : nat) (r : RoadResult) (trees : list ScatterInstance) :
  generateRoads sin tubeVertex getLength terrainMesh = Some r ->
  populateTrees random terrainMesh true fuel = Some trees ->
  length trees = 500%nat
  /\ forall t p, t ∈ trees -> p ∈ pathPoints r ->
       0 <= vy (iposition t) <= heightScale
       /\ 13 <= Qabs (vx (iposition t) - vx p).
Proof.
  intros Hg Ht. unfold populateTrees in Ht.
  destruct (treeLoop_spec random terrainMesh random_range
              fuel numTrees 0 [] trees) as [Hl Hwp]; [constructor|exact Ht|].
  split; [exact Hl|].
  intros t p Ht' Hp'.
  assert (Hoff : Forall (fun t => 18 <= Qabs (vx (iposition t))
                                  /\ Qabs (vx (iposition t)) <= 180
                                  /\ Qabs (vz (iposition t)) <= 360) trees).
  { apply (treeLoop_Forall random terrainMesh _ fuel numTrees 0 [] trees);
      [|constructor|exact Ht].
    intros k t0 k' Hpl.
    exact (placeTree_off_centre random terrainMesh random_range _ _ _ _ Hpl). }
  rewrite Forall_forall in Hwp, Hoff.
  destruct (Hwp t Ht') as (_ & Mx & Mz & Hy & _).
  destruct (Hoff t Ht') as (O18 & _ & _).
  apply list_elem_of_lookup in Hp'. destruct Hp' as [i Hi].
  destruct (road_points_gen r Hg) as [_ Hr].
  destruct (Hr i p Hi) as (_ & _ & Bx & _).
  split.
  - assert (Ew : (45 # 100) * terrainWidth == 180) by reflexivity.
    assert (Ed : (45 # 100) * terrainDepth == 360) by reflexivity.
    assert (Ew2 : terrainWidth / 2 == 200) by reflexivity.
    assert (Ed2 : terrainDepth / 2 == 400) by reflexivity.
    rewrite Ew in Mx. rewrite Ed in Mz.
    apply (query_range (vx (iposition t)) (vz (iposition t)));
      [rewrite Ew2; lra|rewrite Ed2; lra|exact Hy].
  - pose proof (Qabs_triangle_reverse (vx (iposition t)) (vx p)) as T.
    assert (A5 : Qabs (vx p) <= 5) by (apply Qabs_Qle_condition; lra).
    lra.
Qed.

End RoadOnTerrain.

Lemma query_range_built (noiseFn : Q -> Q -> Q -> Q) :
  (forall a b c, - (1) <= noiseFn a b c <= 1)%Q ->
  forall x z h, (- (terrainWidth / 2) <= x)%Q -> (- (terrainDepth / 2) <= z)%Q ->
    getTerrainHeight (Some (createTerrain noiseFn)) x z = Some h ->
    (0 <= h <= heightScale)%Q.
Proof.
  intros Hn x z h Hx Hz Hh.
  destruct (height_within_scale_aux noiseFn Hn x z Hx Hz) as (h' & Hh' & B).
  rewrite Hh in Hh'. injection Hh' as <-. exact B.
Qed.

Section StartUp.
Local Open Scope Q_scope.

Variable noiseFn : Q -> Q -> Q -> Q.
Variable sin : Q -> Q.
Variable tubeVertex : list Vec3 -> nat -> nat -> Vec3.
Variable getLength : list Vec3 -> Q.

(** The road on the built terrain: the 101 path points run along z from
    the near edge to the far edge in steps of 8, stay within 5 of the
    centre line when the sine is within [[-1, 1]], and after the
    conform pass none is below 0.1. *)
Theorem road_follows_built_terrain (r : RoadResult) :
  (forall a b c, - (1) <= noiseFn a b c <= 1) ->
  (forall t, - (1) <= sin t <= 1) ->
  generateRoads sin tubeVertex getLength (Some (createTerrain noiseFn)) = Some r ->
  length (pathPoints r) = 101%nat
  /\ forall i p, pathPoints r !! i = Some p ->
       vz p == - (terrainDepth / 2) + inject_Z (Z.of_nat i) * 8
       /\ - (terrainDepth / 2) <= vz p <= terrainDepth / 2
       /\ - (5) <= vx p <= 5
       /\ 1 # 10 <= vy p.
Proof.
  intros Hn Hs Hg.
  destruct (road_points_gen sin tubeVertex getLength (Some (createTerrain noiseFn))
              Hs (query_range_built noiseFn Hn) (query_total_built noiseFn) r Hg)
    as [Hl Hp].
  split; [exact Hl|]. intros i p Hi.
  destruct (Hp i p Hi) as (Ez & Bz & Bx & By).
  split; [exact Ez|]. split; [exact Bz|]. split; [exact Bx|]. apply By.
Qed.

(** Start-up order: [init] builds the terrain first, so the road and
    the trees are placed on it.  There are 500 trees, none below height
    0 and each at least 13 away along x from every path point of the
    road, which is more than the road's half width. *)
Theorem trees_stand_clear_of_the_road (random : nat -> Q) (fuel : nat)
    (road : RoadResult) (trees : list ScatterInstance) :
  (forall a b c, - (1) <= noiseFn a b c <= 1) ->
  (forall t, - (1) <= sin t <= 1) ->
  (forall n, 0 <= random n /\ random n < 1) ->
  generateRoads sin tubeVertex getLength (Some (createTerrain noiseFn)) = Some road ->
  populateTrees random (Some (createTerrain noiseFn)) true fuel = Some trees ->
  length trees = 500%nat
  /\ roadWidth / 2 < 13
  /\ forall t p, t ∈ trees -> p ∈ pathPoints road ->
       0 <= vy (iposition t)
       /\ 13 <= Qabs (vx (iposition t) - vx p).
Proof.
  intros Hn Hs Hr Hg Ht.
  destruct (placed_objects_gen sin tubeVertex getLength random (Some (createTerrain noiseFn))
              Hs Hr (query_range_built noiseFn Hn) (query_total_built noiseFn)
              fuel road trees Hg Ht) as [Hl Hp].
  split; [exact Hl|]. split; [reflexivity|].
  intros t p Hin Hpin. destruct (Hp t p Hin Hpin) as [By Bx].
  split; [apply By|exact Bx].
Qed.

End StartUp.

Lemma road_follows_built_terrain_witness :
  exists r,
    generateRoads (fun _ => 0%Q) (fun _ _ _ => mkVec3 0 0 0) (fun _ => 800%Q)
      (Some (createTerrain rampNoise)) = Some r
    /\ length (pathPoints r) = 101%nat
    /\ forall i p, pathPoints r !! i = Some p ->
         (vz p == - (terrainDepth / 2) + inject_Z (Z.of_nat i) * 8)%Q
         /\ (- (terrainDepth / 2) <= vz p <= terrainDepth / 2)%Q
         /\ (- (5) <= vx p <= 5)%Q
         /\ (1 # 10 <= vy p)%Q.
Proof.
  destruct (generateRoads_Some (fun _ => 0%Q) (fun _ _ _ => mkVec3 0 0 0) (fun _ => 800%Q)
              (Some (createTerrain rampNoise)) (query_total_built rampNoise))
    as (uvArray & points & Hg & _).
  eexists. split; [exact Hg|].
  apply (road_follows_built_terrain rampNoise (fun _ => 0%Q) (fun _ _ _ => mkVec3 0 0 0)
           (fun _ => 800%Q) _ rampNoise_range); [|exact Hg].
  intros t. split; discriminate.
Defined.

Lemma trees_stand_clear_of_the_road_witness :
  exists road trees,
    generateRoads (fun _ => 0%Q) (fun _ _ _ => mkVec3 0 0 0) (fun _ => 800%Q)
      (Some (createTerrain rampNoise)) = Some road
    /\ populateTrees cycleRandom (Some (createTerrain rampNoise)) true 2 = Some trees
    /\ length trees = 500%nat
    /\ (roadWidth / 2 < 13)%Q
    /\ forall t p, t ∈ trees -> p ∈ pathPoints road ->
         (0 <= vy (iposition t))%Q
         /\ (13 <= Qabs (vx (iposition t) - vx p))%Q.
Proof.
  destruct (generateRoads_Some (fun _ => 0%Q) (fun _ _ _ => mkVec3 0 0 0) (fun _ => 800%Q)
              (Some (createTerrain rampNoise)) (query_total_built rampNoise))
    as (uvArray & points & Hg & _).
  destruct (treeLoop_total cycleRandom (Some (createTerrain rampNoise)) 2 numTrees 0 []
              (query_total_built rampNoise) cycleRandom_fair) as [trees Ht].
  eexists; exists trees. split; [exact Hg|]. split; [exact Ht|].
  apply (trees_stand_clear_of_the_road rampNoise (fun _ => 0%Q) (fun _ _ _ => mkVec3 0 0 0)
           (fun _ => 800%Q) cycleRandom 2 _ trees rampNoise_range);
    [|exact cycleRandom_range|exact Hg|exact Ht].
  intros t. split; discriminate.
Defined.

(** ** Texture coordinates of the road *)

Section RoadUVs.
Local Open Scope Q_scope.


Variable sin : Q -> Q.
Variable tubeVertex : list Vec3 -> nat -> nat -> Vec3.
Variable getLength : list Vec3 -> Q.
Variable terrainMesh : option Mesh.





End RoadUVs.


(** ** The build and the query in doubles *)

Section DoubleTerrainFacts.

(** The rotated plane, vertex by vertex. *)
Lemma double_rotateX_vertices {A : Type} (c s : float) (a b d : A -> float)
    (l : list A) (rest : list float) :
  Double.rotateX c s (flat_map (fun k => [a k; b k; d k]) l ++ rest)
  = flat_map (fun k => Double.applyRotationX c s (a k) (b k) (d k)) l
    ++ Double.rotateX c s rest.
Proof.
  induction l as [|k l IH]; simpl; [reflexivity|]. rewrite IH. reflexivity.
Qed.

Lemma double_rotateX_plane (c s width height : float) (wSeg hSeg : nat) :
  Double.rotateX c s (Double.planePositions width height wSeg hSeg)
  = flat_map (fun iy =>
                flat_map (fun ix =>
                            match Double.planeVertex width height wSeg hSeg iy ix with
                            | [x; y; z] => Double.applyRotationX c s x y z
                            | other => other
                            end) (seq 0 (S wSeg)))
             (seq 0 (S hSeg)).
Proof.
  unfold Double.planePositions. generalize (seq 0 (S hSeg)) as rows.
  induction rows as [|iy rows IH]; [reflexivity|].
  cbn [flat_map]. unfold Double.planeVertex at 1.
  rewrite double_rotateX_vertices, IH. reflexivity.
Qed.

Lemma double_length_ground_plane (c s width height : float) (wSeg hSeg : nat) :
  length (Double.rotateX c s (Double.planePositions width height wSeg hSeg))
  = (S hSeg * (S wSeg * 3))%nat.
Proof.
  rewrite double_rotateX_plane.
  rewrite (length_flat_map_const _ _ (S wSeg * 3)).
  - rewrite length_seq. reflexivity.
  - intros iy. rewrite (length_flat_map_const _ _ 3) by reflexivity.
    rewrite length_seq. reflexivity.
Qed.

Lemma double_lookup_ground_plane (c s width height : float) (wSeg hSeg : nat)
    (iy ix r : nat) :
  (iy <= hSeg)%nat -> (ix <= wSeg)%nat -> (r < 3)%nat ->
  Double.rotateX c s (Double.planePositions width height wSeg hSeg)
    !! ((iy * S wSeg + ix) * 3 + r)%nat
  = match Double.planeVertex width height wSeg hSeg iy ix with
    | [x; y; z] => Double.applyRotationX c s x y z
    | other => other
    end !! r.
Proof.
  intros Hy Hx Hr. rewrite double_rotateX_plane.
  replace ((iy * S wSeg + ix) * 3 + r)%nat with (iy * (S wSeg * 3) + (ix * 3 + r))%nat by lia.
  rewrite (lookup_flat_map_const _ _ (S wSeg * 3)).
  - rewrite lookup_seq_lt by lia. cbn [mbind option_bind].
    rewrite (lookup_flat_map_const _ _ 3) by (reflexivity || lia).
    rewrite lookup_seq_lt by lia. reflexivity.
  - intros a. rewrite (length_flat_map_const _ _ 3) by reflexivity.
    rewrite length_seq. reflexivity.
  - lia.
Qed.

Variable noiseFn : float -> float -> float -> float.

Lemma double_terrainLoop_length n i j st :
  length (Double.vertices (Double.terrainLoop noiseFn n i j st))
  = length (Double.vertices st).
Proof.
  revert i j st. induction n as [|n IH]; intros i j st; simpl; [reflexivity|].
  rewrite IH. unfold Double.terrainStep; simpl. apply length_insert.
Qed.

(** Slot [r] of vertex [k] after [n] iterations from counter [i]. *)
Lemma double_terrainLoop_lookup n i st (k r : nat) :
  (r < 3)%nat -> (k * 3 + r < length (Double.vertices st))%nat ->
  Double.vertices (Double.terrainLoop noiseFn n i (i * 3) st) !! (k * 3 + r)%nat
  = if decide (r = 1%nat /\ (i <= k < i + n)%nat)
    then Some (Double.vertexHeight noiseFn k)
    else Double.vertices st !! (k * 3 + r)%nat.
Proof.
  revert i st. induction n as [|n IH]; intros i st Hr Hk; simpl.
  - destruct (decide _) as [H|H]; [lia|reflexivity].
  - replace (i * 3 + 3)%nat with ((i + 1) * 3)%nat by lia.
    rewrite IH by (unfold Double.terrainStep; simpl; rewrite ?length_insert; assumption).
    unfold Double.terrainStep; simpl.
    destruct (decide (r = 1%nat /\ (i + 1 <= k < i + 1 + n)%nat)) as [H1|H1];
      destruct (decide (r = 1%nat /\ (i <= k < i + S n)%nat)) as [H2|H2];
      try lia; try reflexivity.
    + assert (k = i /\ r = 1%nat) as [-> ->] by lia.
      apply list_lookup_insert_eq. exact Hk.
    + apply list_lookup_insert_ne. lia.
Qed.

Lemma double_length_initial_vertices :
  length (Double.vertices Double.initialTerrainState) = (Z.to_nat size * 3)%nat.
Proof.
  unfold Double.initialTerrainState; cbn [Double.vertices].
  rewrite double_length_ground_plane.
  change (Z.to_nat (resolution - 1)) with 127%nat. rewrite size_nat. lia.
Qed.

(** The height slot of vertex [k] of the built buffer. *)
Lemma double_built_height (k : nat) :
  (k < 128 * 128)%nat ->
  Double.array (Double.builtPosition noiseFn) !! (k * 3 + 1)%nat
  = Some (Double.vertexHeight noiseFn k).
Proof.
  intros Hk. unfold Double.builtPosition, Double.builtTerrainState; cbn [Double.array].
  change 0%nat with (0 * 3)%nat at 2.
  rewrite double_terrainLoop_lookup.
  - destruct (decide _) as [H|H]; [reflexivity|]. rewrite size_nat in H. lia.
  - lia.
  - rewrite double_length_initial_vertices, size_nat. lia.
Qed.

(** The other two slots of vertex [ix] of row [iy] are as the rotated
    plane left them. *)
Lemma double_built_xz (iy ix r : nat) :
  (iy < 128)%nat -> (ix < 128)%nat -> r <> 1%nat -> (r < 3)%nat ->
  Double.array (Double.builtPosition noiseFn) !! ((iy * 128 + ix) * 3 + r)%nat
  = match Double.planeVertex Double.terrainWidth Double.terrainDepth 127 127 iy ix with
    | [x; y; z] =>
        Double.applyRotationX Double.cosQuarterTurn Double.sinQuarterTurn x y z
    | other => other
    end !! r.
Proof.
  intros Hy Hx Hr1 Hr.
  unfold Double.builtPosition, Double.builtTerrainState; cbn [Double.array].
  change 0%nat with (0 * 3)%nat at 2.
  rewrite double_terrainLoop_lookup.
  - destruct (decide _) as [H|H]; [lia|].
    unfold Double.initialTerrainState; cbn [Double.vertices].
    change (Z.to_nat (resolution - 1)) with 127%nat.
    apply (double_lookup_ground_plane _ _ _ _ 127 127); lia.
  - exact Hr.
  - rewrite double_length_initial_vertices, size_nat. lia.
Qed.

End DoubleTerrainFacts.

Section DoubleQueryFacts.
Local Open Scope float_scope.

Variable noiseFn : float -> float -> float -> float.

(** A read of the built buffer at a computed index. *)
Lemma double_getComponent_built (index : float) (k : nat) (n : Z) :
  Double.toIndex (index * Double.ofZ 3 + Double.ofZ (Z.of_nat k)) = Some n ->
  Double.getComponent (Double.builtPosition noiseFn) index k
  = Double.array (Double.builtPosition noiseFn) !! Z.to_nat n.
Proof.
  intros H. unfold Double.getComponent.
  change (Z.of_nat (Double.itemSize (Double.builtPosition noiseFn))) with 3%Z.
  rewrite H. reflexivity.
Qed.

(** The query on the built terrain, once the four corner indices are
    known. *)
Lemma double_getTerrainHeight_built (x z : float) (k00 k10 k01 k11 : nat) :
  Double.toIndex (Double.p00Index x z * Double.ofZ 3 + Double.ofZ 1)
    = Some (Z.of_nat (k00 * 3 + 1)) ->
  Double.toIndex (Double.p10Index x z * Double.ofZ 3 + Double.ofZ 1)
    = Some (Z.of_nat (k10 * 3 + 1)) ->
  Double.toIndex (Double.p01Index x z * Double.ofZ 3 + Double.ofZ 1)
    = Some (Z.of_nat (k01 * 3 + 1)) ->
  Double.toIndex (Double.p11Index x z * Double.ofZ 3 + Double.ofZ 1)
    = Some (Z.of_nat (k11 * 3 + 1)) ->
  (k00 < 128 * 128)%nat -> (k10 < 128 * 128)%nat ->
  (k01 < 128 * 128)%nat -> (k11 < 128 * 128)%nat ->
  Double.getTerrainHeight (Some (Double.createTerrain noiseFn)) x z
  = Double.bilinear (Double.fracU x) (Double.fracV z)
      (Double.vertexHeight noiseFn k00) (Double.vertexHeight noiseFn k10)
      (Double.vertexHeight noiseFn k01) (Double.vertexHeight noiseFn k11).
Proof.
  intros E00 E10 E01 E11 H00 H10 H01 H11.
  unfold Double.getTerrainHeight, Double.createTerrain;
    cbn [Double.geometry Double.position].
  unfold Double.interpolate, Double.getY.
  rewrite (double_getComponent_built _ 1 _ E00), (double_getComponent_built _ 1 _ E10),
    (double_getComponent_built _ 1 _ E01), (double_getComponent_built _ 1 _ E11).
  rewrite !Nat2Z.id.
  rewrite !double_built_height by assumption.
  reflexivity.
Qed.

(** The vertices of the rotated plane lie on the grid, rounded to single
    precision, and inside the terrain rectangle. *)
Lemma double_ground_vertex (iy ix : nat) :
  (iy < 128)%nat -> (ix < 128)%nat ->
  let gx := Double.toFloat32
              (Double.ofZ (Z.of_nat ix) * Double.cellWidth - Double.terrainWidth / 2) in
  let gz := Double.toFloat32
              (Double.ofZ (Z.of_nat iy) * Double.cellDepth - Double.terrainDepth / 2) in
  match Double.planeVertex Double.terrainWidth Double.terrainDepth 127 127 iy ix with
  | [x; y; z] => Double.applyRotationX Double.cosQuarterTurn Double.sinQuarterTurn x y z
  | other => other
  end !! 0%nat = Some gx
  /\ match Double.planeVertex Double.terrainWidth Double.terrainDepth 127 127 iy ix with
     | [x; y; z] => Double.applyRotationX Double.cosQuarterTurn Double.sinQuarterTurn x y z
     | other => other
     end !! 2%nat = Some gz
  /\ (- (Double.terrainWidth / 2) <=? gx) = true /\ (gx <=? Double.terrainWidth / 2) = true
  /\ (- (Double.terrainDepth / 2) <=? gz) = true /\ (gz <=? Double.terrainDepth / 2) = true.
Proof.
  intros Hy Hx gx gz.
  pose (check := fun (iy ix : nat) =>
    let gx := Double.toFloat32
                (Double.ofZ (Z.of_nat ix) * Double.cellWidth - Double.terrainWidth / 2) in
    let gz := Double.toFloat32
                (Double.ofZ (Z.of_nat iy) * Double.cellDepth - Double.terrainDepth / 2) in
    match Double.planeVertex Double.terrainWidth Double.terrainDepth 127 127 iy ix with
    | [x; y; z] =>
        match Double.applyRotationX Double.cosQuarterTurn Double.sinQuarterTurn x y z with
        | [x'; _; z'] =>
            Leibniz.eqb x' gx && Leibniz.eqb z' gz
            && (- (Double.terrainWidth / 2) <=? gx) && (gx <=? Double.terrainWidth / 2)
            && (- (Double.terrainDepth / 2) <=? gz) && (gz <=? Double.terrainDepth / 2)
        | _ => false
        end
    | _ => false
    end).
  assert (H : forallb (fun iy => forallb (check iy) (seq 0 128)) (seq 0 128) = true)
    by (vm_compute; reflexivity).
  rewrite forallb_forall in H. specialize (H iy). rewrite forallb_forall in H.
  assert (C : check iy ix = true) by (apply H; apply in_seq; lia).
  unfold check in C. fold gx gz in C.
  unfold Double.planeVertex, Double.applyRotationX in *.
  cbn [lookup list_lookup] in *.
  rewrite !andb_true_iff in C.
  destruct C as [[[[[C1 C2] C3] C4] C5] C6].
  apply Leibniz.eqb_spec in C1, C2.
  repeat split; try assumption; f_equal; assumption.
Qed.

End DoubleQueryFacts.

Section DoubleClaims.
Local Open Scope float_scope.

(** C2: in the arithmetic the code runs on, the query at a grid vertex
    does not return the height stored there.  On the terrain built from
    [Double.rampNoise], vertex 10 of row 1 lies strictly inside the
    terrain and holds height 20.859375.  At the position the buffer
    holds for it the query returns 20.859389573335648.  At the grid
    point [10 * cellWidth - terrainWidth / 2] computed in doubles,
    [Math.floor] finds cell 10 while [%] leaves an offset of almost a
    whole cell, and the query returns 20.624999999999986: the height of
    vertex 11, a grid step away. *)
Theorem height_at_interior_vertex_is_not_the_stored_height :
  let pos := Double.builtPosition Double.rampNoise in
  let terrain := Some (Double.createTerrain Double.rampNoise) in
  let x := -168.50393676757812 in
  let z := -393.70077514648438 in
  let gx := 10 * Double.cellWidth - Double.terrainWidth / 2 in
  let gz := 1 * Double.cellDepth - Double.terrainDepth / 2 in
  Double.getX pos (1 * 128 + 10) = Some x
  /\ Double.getZ pos (1 * 128 + 10) = Some z
  /\ Double.getY pos (1 * 128 + 10) = Some 20.859375
  /\ Double.getY pos (1 * 128 + 11) = Some 20.625
  /\ (- (Double.terrainWidth / 2) <? x) = true /\ (x <? Double.terrainWidth / 2) = true
  /\ (- (Double.terrainDepth / 2) <? z) = true /\ (z <? Double.terrainDepth / 2) = true
  /\ Double.getTerrainHeight terrain x z = 20.859389573335648
  /\ Double.toFloat32 gx = x /\ Double.toFloat32 gz = z
  /\ Double.gridX gx = 10 /\ Double.fracU gx = 0.99999999999999967
  /\ Double.gridZ gz = 0 /\ Double.fracV gz = 0.99999999999999811
  /\ Double.getTerrainHeight terrain gx gz = 20.624999999999986.
Proof.
  cbv zeta.
  split.
  { unfold Double.getX.
    rewrite (double_getComponent_built _ _ 0 (Z.of_nat ((1 * 128 + 10) * 3 + 0)))
      by (vm_compute; reflexivity).
    rewrite Nat2Z.id, double_built_xz by lia. vm_compute. reflexivity. }
  split.
  { unfold Double.getZ.
    rewrite (double_getComponent_built _ _ 2 (Z.of_nat ((1 * 128 + 10) * 3 + 2)))
      by (vm_compute; reflexivity).
    rewrite Nat2Z.id, double_built_xz by lia. vm_compute. reflexivity. }
  split.
  { unfold Double.getY.
    rewrite (double_getComponent_built _ _ 1 (Z.of_nat (138 * 3 + 1)))
      by (vm_compute; reflexivity).
    rewrite Nat2Z.id, double_built_height by lia. vm_compute. reflexivity. }
  split.
  { unfold Double.getY.
    rewrite (double_getComponent_built _ _ 1 (Z.of_nat (139 * 3 + 1)))
      by (vm_compute; reflexivity).
    rewrite Nat2Z.id, double_built_height by lia. vm_compute. reflexivity. }
  do 4 (split; [vm_compute; reflexivity|]).
  split.
  { rewrite (double_getTerrainHeight_built _ _ _ 138 139 266 267);
      try lia; vm_compute; reflexivity. }
  do 6 (split; [vm_compute; reflexivity|]).
  rewrite (double_getTerrainHeight_built _ _ _ 10 11 138 139);
    try lia; vm_compute; reflexivity.
Qed.

(** The build leaves every vertex on the grid the query assumes: for
    any noise, the vertex of column [ix] and row [iy] of the built
    buffer has [x = ix * cellWidth - terrainWidth / 2] and
    [z = iy * cellDepth - terrainDepth / 2], each computed in doubles
    and rounded to single precision, inside the terrain rectangle. *)
Theorem built_vertices_lie_on_the_rounded_grid
    (noiseFn : float -> float -> float -> float) (iy ix : nat) :
  (iy < 128)%nat -> (ix < 128)%nat ->
  exists x z,
    Double.array (Double.builtPosition noiseFn) !! ((iy * 128 + ix) * 3 + 0)%nat = Some x
    /\ Double.array (Double.builtPosition noiseFn) !! ((iy * 128 + ix) * 3 + 2)%nat = Some z
    /\ x = Double.toFloat32
             (Double.ofZ (Z.of_nat ix) * Double.cellWidth - Double.terrainWidth / 2)
    /\ z = Double.toFloat32
             (Double.ofZ (Z.of_nat iy) * Double.cellDepth - Double.terrainDepth / 2)
    /\ (- (Double.terrainWidth / 2) <=? x) = true /\ (x <=? Double.terrainWidth / 2) = true
    /\ (- (Double.terrainDepth / 2) <=? z) = true /\ (z <=? Double.terrainDepth / 2) = true.
Proof.
  intros Hy Hx.
  destruct (double_ground_vertex iy ix Hy Hx) as (Gx & Gz & B).
  eexists; eexists.
  split; [rewrite double_built_xz by lia; exact Gx|].
  split; [rewrite double_built_xz by lia; exact Gz|].
  split; [reflexivity|]. split; [reflexivity|]. exact B.
Qed.

(** Vertex 901, column 5 of row 7. *)
Lemma built_vertices_lie_on_the_rounded_grid_witness :
  exists x z,
    Double.array (Double.builtPosition Double.rampNoise) !! ((7 * 128 + 5) * 3 + 0)%nat
      = Some x
    /\ Double.array (Double.builtPosition Double.rampNoise) !! ((7 * 128 + 5) * 3 + 2)%nat
       = Some z
    /\ x = -184.25196838378906
    /\ z = -355.90551757812500.
Proof.
  destruct (built_vertices_lie_on_the_rounded_grid Double.rampNoise 7 5)
    as (x & z & Hx & Hz & Ex & Ez & _); [lia|lia|].
  exists x, z. split; [exact Hx|]. split; [exact Hz|].
  split; [rewrite Ex|rewrite Ez]; vm_compute; reflexivity.
Defined.

End DoubleClaims.
